(** * Customer recommendation engine: the selection pipeline

    A shallow embedding of the three revisions of the workflow script
    ([Agentic_workflow_v6.4.py], [Agentic_workflow_v7.0.py],
    [Agentic_workflow_v7.1.py]) and the properties of its candidate
    collector, rank-and-dedup selector, threshold validator and HTTP
    endpoints.

    Conventions of the embedding:
    - Python floats (similarity scores, vector components) are modelled
      by rationals [Q]; the pipeline only compares and copies scores, so
      every comparison is exact; [aggregate_vectors] is the only place
      that does arithmetic. The literal [0.7] is [7 # 10].
    - A Python [set] of strings is a [gset string].
    - A call that may raise returns an [outcome]; the two databases are
      oracles passed as arguments, and every similarity query that is
      issued is appended to a query log. *)

From Stdlib Require Import QArith.
From stdpp Require Import base list strings gmap sets sorting.

Open Scope string_scope.
Open Scope Z_scope.
Open Scope list_scope.

(** ** Exceptions and outcomes *)

Inductive exn : Type :=
  | HTTPException (status_code : Z)
  | ValueError (msg : string)
  | IndexError
  | NameError
  | DBError.

Inductive outcome (A : Type) : Type :=
  | Returns (a : A)
  | Raises (e : exn).
Arguments Returns {A} a.
Arguments Raises {A} e.

(** ** Documents of the two collections *)

(** A document of [userinterests]; a key may be absent, and
    [entry.get(key, d)] is [default d]. *)
Record entry : Type := {
  InterestName : option string;
  InterestDescription : option string;
  entry_vector : option (list Q)
}.

(** A document returned by the similarity search, read through
    [ad.get("product", "")], [ad.get("video_link")] (the empty string
    stands for an absent or empty link) and [ad.get("$similarity", 0.0)]. *)
Record ad : Type := {
  ad_product : string;
  video_link : string;
  similarity : Q
}.

(** The dictionaries appended to [all_recommendations]. *)
Record candidate : Type := {
  cand_url : string;
  cand_product : string;
  cand_score : Q;
  cand_vector_idx : Z
}.

(** The pydantic model [Recommendation]: a candidate without its
    [vector_idx]. *)
Record Recommendation : Type := {
  rec_url : string;
  rec_product : string;
  rec_score : Q
}.

Definition to_recommendation (c : candidate) : Recommendation :=
  {| rec_url := cand_url c; rec_product := cand_product c;
     rec_score := cand_score c |}.

(** [(vector, InterestName, InterestDescription)] *)
Definition interest : Type := (list Q * string * string)%type.

(** [advertisements_collection.find({}, sort={"$vector": v}, limit=10, ...)]:
    the answer of the index to the query vector [v]. *)
Definition ads_db : Type := list Q → outcome (list ad).

(** [userinterests_collection.find({"UserId": id}, ...)] *)
Definition interests_db : Type := string → outcome (list entry).

(** ** Code shared verbatim by the three revisions *)

(** [ad.get("video_link", "") + "&autoplay=1&mute=1" if ad.get("video_link") else ""] *)
Definition playback_url (link : string) : string :=
  if decide (link = "") then "" else link +:+ "&autoplay=1&mute=1".

(** The loop [for ad in top_ads] with its [seen_products] set and its
    [vector_recommendations] list. *)
Fixpoint vector_loop (idx : Z) (top_ads : list ad)
    (seen_products : gset string) (vector_recommendations : list candidate)
    : list candidate :=
  match top_ads with
  | [] => vector_recommendations
  | a :: rest =>
      let product := ad_product a in
      if decide (product ∈ seen_products) then
        vector_loop idx rest seen_products vector_recommendations
      else
        let ad_url := playback_url (video_link a) in
        if decide (ad_url = "") then
          vector_loop idx rest seen_products vector_recommendations
        else
          vector_loop idx rest ({[product]} ∪ seen_products)
            (vector_recommendations ++
               [{| cand_url := ad_url; cand_product := product;
                   cand_score := similarity a; cand_vector_idx := idx |}])
  end.

Definition vector_recommendations_of (idx : Z) (top_ads : list ad) : list candidate :=
  vector_loop idx top_ads ∅ [].

(** The loop [for idx, (user_vector, _, _) in enumerate(...)]. It returns
    the query log next to its outcome; a query that raises ends the loop,
    as no revision catches it inside the loop. *)
Fixpoint collect_loop (find : ads_db) (idx : Z) (vectors : list interest)
    (queried : list (list Q)) (all_recommendations : list candidate)
    : list (list Q) * outcome (list candidate) :=
  match vectors with
  | [] => (queried, Returns all_recommendations)
  | (user_vector, _, _) :: rest =>
      match find user_vector with
      | Raises e => (queried ++ [user_vector], Raises e)
      | Returns [] =>
          collect_loop find (idx + 1) rest (queried ++ [user_vector])
            all_recommendations
      | Returns top_ads =>
          collect_loop find (idx + 1) rest (queried ++ [user_vector])
            (all_recommendations ++ vector_recommendations_of idx top_ads)
      end
  end.

(** [list.sort(key=..., reverse=True)]: Python's sort is stable, also with
    [reverse=True]; it only uses [<] on the keys. [ltb x y] is
    [key(x) < key(y)]. *)
Section StableSort.
Context {A : Type} (ltb : A → A → bool).

Fixpoint insert_desc (x : A) (l : list A) : list A :=
  match l with
  | [] => [x]
  | y :: l' => if ltb x y then y :: insert_desc x l' else x :: y :: l'
  end.

Definition sort_desc (l : list A) : list A := foldr insert_desc [] l.
End StableSort.

(** [key=lambda x: x["score"]] (v6.4) *)
Definition score_ltb (x y : candidate) : bool :=
  negb (Qle_bool (cand_score y) (cand_score x)).

(** [key=lambda x: (x["score"], -x["vector_idx"])] (v7.0, v7.1): tuples
    compare on the first component where they differ. *)
Definition score_idx_ltb (x y : candidate) : bool :=
  if Qeq_bool (cand_score x) (cand_score y)
  then (- cand_vector_idx x <? - cand_vector_idx y)
  else negb (Qle_bool (cand_score y) (cand_score x)).

(** The loop [for rec in all_recommendations] over the sorted pool. *)
Fixpoint dedup_loop (recs : list candidate) (seen_products : gset string)
    (deduplicated_recommendations : list candidate) : list candidate :=
  match recs with
  | [] => deduplicated_recommendations
  | r :: rest =>
      if decide (cand_product r ∈ seen_products) then
        dedup_loop rest seen_products deduplicated_recommendations
      else
        dedup_loop rest ({[cand_product r]} ∪ seen_products)
          (deduplicated_recommendations ++ [r])
  end.

(** The loop that fills [top_recommendations], deduplicated by url and
    capped at five entries. *)
Fixpoint shortlist_loop (recs : list candidate) (seen_urls : gset string)
    (top_recommendations : list Recommendation) : list Recommendation :=
  match recs with
  | [] => top_recommendations
  | r :: rest =>
      if decide ((cand_url r ∉ seen_urls) ∧ (length top_recommendations < 5)%nat) then
        shortlist_loop rest ({[cand_url r]} ∪ seen_urls)
          (top_recommendations ++ [to_recommendation r])
      else
        shortlist_loop rest seen_urls top_recommendations
  end.

(** From [top_match = deduplicated_recommendations[0]] to the end of the
    shortlist loop. An empty list raises [IndexError]. *)
Definition top_and_shortlist (deduplicated_recommendations : list candidate)
    : outcome (candidate * list Recommendation) :=
  match deduplicated_recommendations with
  | [] => Raises IndexError
  | top_match :: rest =>
      Returns (top_match,
               shortlist_loop rest {[cand_url top_match]}
                 [to_recommendation top_match])
  end.

(** The constants of [agent_3_node] (v6.4 and v7.1). *)
Definition SIMILARITY_THRESHOLD : Q := 0.7.
Definition DEFAULT_AD_URL : string :=
  "https://www.youtube.com/watch?v=default_ad&autoplay=1&mute=1".
Definition DEFAULT_PRODUCT : string := "Generic Product".
(** The url of [error_handler_node]. *)
Definition DEFAULT_VIDEO_URL : string :=
  "https://www.youtube.com/watch?v=default_video&autoplay=1&mute=1".

(** [", ".join(set(...))]: the iteration order of a Python set is not
    specified; the model joins the distinct strings in first-occurrence
    order. No property below depends on this text. *)
Definition join_set (l : list string) : string :=
  String.concat ", " (remove_dups l).

(** The dictionary [user_interests]; [name_default] and [desc_default]
    are the defaults of the two [entry.get] calls. *)
Definition user_interests_of (name_default desc_default : string)
    (entries : list entry) : gmap string string :=
  <["InterestName" :=
      join_set ((λ e, default name_default (InterestName e)) <$> entries)]>
    (<["InterestDescription" :=
         join_set ((λ e, default desc_default (InterestDescription e)) <$> entries)]>
       ∅).

(** [[(e["$vector"], e["InterestName"], e["InterestDescription"])
      for e in entries if e.get("$vector", [])]] *)
Definition vectors_with_interests_of (entries : list entry) : list interest :=
  (λ e, (default [] (entry_vector e),
         default "" (InterestName e),
         default "" (InterestDescription e))) <$>
  filter (λ e, default [] (entry_vector e) ≠ []) entries.

(** The pydantic models of the HTTP 200 answer. *)
Module Api.
Record SelectionApproachResponse : Type := {
  top_ad : Recommendation;
  top_recommendations : list Recommendation
}.

Record RecommendationResponse : Type := {
  customer_id : string;
  user_interests : gmap string string;
  selection_approach : SelectionApproachResponse
}.
End Api.

Inductive http_response : Type :=
  | HTTP_200 (body : Api.RecommendationResponse)
  | HTTP_error (status_code : Z).

(** The two [except] clauses of both endpoints: an [HTTPException] is
    raised again and answered with its own status, anything else becomes
    [HTTPException(status_code=500)]. *)
Definition respond (o : outcome Api.RecommendationResponse) : http_response :=
  match o with
  | Returns body => HTTP_200 body
  | Raises (HTTPException status_code) => HTTP_error status_code
  | Raises _ => HTTP_error 500
  end.

(** ** Revision 7.0: the plain FastAPI service *)

Module V70.

Definition get_user_data (users : interests_db) (user_id : string)
    : outcome (string * gmap string string * list interest) :=
  match users user_id with
  | Raises e => Raises e
  | Returns [] => Raises (HTTPException 404)
  | Returns entries =>
      let customer_id := user_id in
      let user_interests := user_interests_of "" "" entries in
      match vectors_with_interests_of entries with
      | [] => Raises (HTTPException 400)
      | user_vectors_with_interests =>
          Returns (customer_id, user_interests, user_vectors_with_interests)
      end
  end.

Definition perform_selection_approach (find : ads_db)
    (user_vectors_with_interests : list interest)
    : list (list Q) * outcome (list candidate) :=
  match collect_loop find 0 user_vectors_with_interests [] [] with
  | (queried, Raises e) => (queried, Raises e)
  | (queried, Returns []) => (queried, Raises (HTTPException 404))
  | (queried, Returns all_recommendations) =>
      (queried, Returns all_recommendations)
  end.

(** The sorted, product-deduplicated pool built inside
    [select_top_recommendation]. *)
Definition deduplicated_recommendations (all_recommendations : list candidate)
    : list candidate :=
  dedup_loop (sort_desc score_idx_ltb all_recommendations) ∅ [].

Definition select_top_recommendation (all_recommendations : list candidate)
    : outcome Api.SelectionApproachResponse :=
  match top_and_shortlist (deduplicated_recommendations all_recommendations) with
  | Raises e => Raises e
  | Returns (top_match, shortlist) =>
      Returns {| Api.top_ad := to_recommendation top_match;
                 Api.top_recommendations := shortlist |}
  end.

(** The body of the [try] block of the endpoint. *)
Definition get_recommendations_body (users : interests_db) (find : ads_db)
    (user_id : string) : list (list Q) * outcome Api.RecommendationResponse :=
  match get_user_data users user_id with
  | Raises e => ([], Raises e)
  | Returns (customer_id, user_interests, user_vectors_with_interests) =>
      match perform_selection_approach find user_vectors_with_interests with
      | (queried, Raises e) => (queried, Raises e)
      | (queried, Returns all_recommendations) =>
          match select_top_recommendation all_recommendations with
          | Raises e => (queried, Raises e)
          | Returns selection_result =>
              (queried,
               Returns {| Api.customer_id := customer_id;
                          Api.user_interests := user_interests;
                          Api.selection_approach := selection_result |})
          end
      end
  end.

(** [GET /recommend/{user_id}]: the query log and the HTTP answer. *)
Definition get_recommendations (users : interests_db) (find : ads_db)
    (user_id : string) : list (list Q) * http_response :=
  let '(queried, o) := get_recommendations_body users find user_id in
  (queried, respond o).

End V70.

(** ** Revision 7.1: the LangGraph workflow behind the same endpoint *)

Module V71.

Record WorkflowState : Type := {
  customer_id : string;
  user_interests : gmap string string;
  user_vectors_with_interests : list interest;
  ad_url : string;
  product : string;
  similarity_score : Q;
  play_ad : bool;
  top_recommendations : list Recommendation
}.

Definition agent_1_node (users : interests_db) (state : WorkflowState)
    : outcome WorkflowState :=
  if decide (customer_id state = "") then
    Raises (ValueError "No CustomerID provided")
  else
    match users (customer_id state) with
    | Raises e => Raises e
    | Returns [] => Raises (ValueError "No entries found for UserId")
    | Returns entries =>
        match vectors_with_interests_of entries with
        | [] => Raises (ValueError "No valid $vector found for UserId")
        | vectors =>
            Returns {| customer_id := customer_id state;
                       user_interests := user_interests_of "" "" entries;
                       user_vectors_with_interests := vectors;
                       ad_url := ad_url state;
                       product := "";
                       similarity_score := 0;
                       play_ad := false;
                       top_recommendations := [] |}
        end
    end.

Definition deduplicated_recommendations (all_recommendations : list candidate)
    : list candidate :=
  dedup_loop (sort_desc score_idx_ltb all_recommendations) ∅ [].

Definition agent_2_node (find : ads_db) (state : WorkflowState)
    : list (list Q) * outcome WorkflowState :=
  match collect_loop find 0 (user_vectors_with_interests state) [] [] with
  | (queried, Raises e) => (queried, Raises e)
  | (queried, Returns []) =>
      (queried,
       Raises (ValueError
         "No advertisements found across all vectors (Selection Approach)"))
  | (queried, Returns all_recommendations) =>
      match top_and_shortlist (deduplicated_recommendations all_recommendations) with
      | Raises e => (queried, Raises e)
      | Returns (top_match, shortlist) =>
          (queried,
           Returns {| customer_id := customer_id state;
                      user_interests := user_interests state;
                      user_vectors_with_interests :=
                        user_vectors_with_interests state;
                      ad_url := cand_url top_match;
                      product := cand_product top_match;
                      similarity_score := cand_score top_match;
                      play_ad := false;
                      top_recommendations := shortlist |})
      end
  end.

Definition agent_3_node (state : WorkflowState) : WorkflowState :=
  if Qle_bool SIMILARITY_THRESHOLD (similarity_score state) then
    {| customer_id := customer_id state;
       user_interests := user_interests state;
       user_vectors_with_interests := user_vectors_with_interests state;
       ad_url := ad_url state;
       product := product state;
       similarity_score := similarity_score state;
       play_ad := true;
       top_recommendations := top_recommendations state |}
  else
    {| customer_id := customer_id state;
       user_interests := user_interests state;
       user_vectors_with_interests := user_vectors_with_interests state;
       ad_url := DEFAULT_AD_URL;
       product := DEFAULT_PRODUCT;
       similarity_score := 0;
       play_ad := false;
       top_recommendations := [] |}.

Definition error_handler_node (state : WorkflowState) : WorkflowState :=
  {| customer_id := customer_id state;
     user_interests := user_interests state;
     user_vectors_with_interests := user_vectors_with_interests state;
     ad_url := DEFAULT_VIDEO_URL;
     product := "";
     similarity_score := 0;
     play_ad := false;
     top_recommendations := [] |}.

(** [graph.invoke]: [START -> agent_1], the conditional edge on
    [state["customer_id"]], [agent_2 -> agent_3 -> END] and
    [error_handler -> END]. *)
Definition graph_invoke (users : interests_db) (find : ads_db)
    (state : WorkflowState) : list (list Q) * outcome WorkflowState :=
  match agent_1_node users state with
  | Raises e => ([], Raises e)
  | Returns s1 =>
      if decide (customer_id s1 = "") then
        ([], Returns (error_handler_node s1))
      else
        match agent_2_node find s1 with
        | (queried, Raises e) => (queried, Raises e)
        | (queried, Returns s2) => (queried, Returns (agent_3_node s2))
        end
  end.

Definition initial_state (user_id : string) : WorkflowState :=
  {| customer_id := user_id;
     user_interests := ∅;
     user_vectors_with_interests := [];
     ad_url := "";
     product := "";
     similarity_score := 0;
     play_ad := false;
     top_recommendations := [] |}.

(** The body of the [try] block of the endpoint. *)
Definition get_recommendations_body (users : interests_db) (find : ads_db)
    (user_id : string) : list (list Q) * outcome Api.RecommendationResponse :=
  match graph_invoke users find (initial_state user_id) with
  | (queried, Raises e) => (queried, Raises e)
  | (queried, Returns result) =>
      if decide (customer_id result = "" ∨ top_recommendations result = []) then
        (queried, Raises (HTTPException 404))
      else
        (queried,
         Returns {| Api.customer_id := customer_id result;
                    Api.user_interests := user_interests result;
                    Api.selection_approach :=
                      {| Api.top_ad :=
                           {| rec_url := ad_url result;
                              rec_product := product result;
                              rec_score := similarity_score result |};
                         Api.top_recommendations := top_recommendations result |} |})
  end.

Definition get_recommendations (users : interests_db) (find : ads_db)
    (user_id : string) : list (list Q) * http_response :=
  let '(queried, o) := get_recommendations_body users find user_id in
  (queried, respond o).

End V71.

(** ** Revision 6.4: the command-line script with two approaches *)

Module V64.

Record WorkflowState : Type := {
  customer_id : string;
  ad_url : string;
  ad_url_agg : string;
  user_interests : gmap string string;
  user_vectors : list (list Q);
  user_vectors_with_interests : list interest;
  user_vector_agg : list Q;
  product : string;
  product_agg : string;
  similarity_score : Q;
  similarity_score_agg : Q;
  play_ad : bool;
  play_ad_agg : bool;
  top_recommendations : list Recommendation;
  top_recommendations_agg : list Recommendation
}.

Definition dummy_facial_recognition : string := "003dL000008HU8rQAG".

(** [np.mean(np.array(vectors), axis=0).tolist()]: the rows are added
    component by component and the sum is divided by the number of
    rows. Rows of different lengths make [np.array]/[np.mean] raise. *)
Definition np_mean_axis0 (vectors : list (list Q)) : outcome (list Q) :=
  match vectors with
  | [] => Raises (ValueError "mean of empty")
  | v0 :: rest =>
      if forallb (λ v, (length v =? length v0)%nat) rest then
        Returns ((λ x, x / inject_Z (Z.of_nat (length vectors)))%Q <$>
                 foldl (zip_with Qplus) v0 rest)
      else Raises (ValueError "inhomogeneous shape")
  end.

Definition aggregate_vectors (vectors : list (list Q)) : list Q :=
  match vectors with
  | [] => []
  | _ =>
      match np_mean_axis0 vectors with
      | Returns aggregated_vector => aggregated_vector
      | Raises _ => []
      end
  end.

(** What [agent_1_node] reads from outside: the typed choice, the
    environment variables, the connection to the store, the tuple
    returned by [get_random_user_id] (which draws at random and never
    raises) and the store's answer for the recognised customer. *)
Record environment : Type := {
  choice : string;
  endpoint_valid : bool;
  token_set : bool;
  connect : outcome ();
  random_customer_id : option string;
  random_user_interests : gmap string string;
  random_user_vectors : list (list Q);
  random_user_vectors_with_interests : list interest;
  random_user_vector_agg : list Q;
  users : interests_db
}.

(** The dictionary returned by [agent_1_node]; only these five entries
    differ between its branches. *)
Definition agent_1_found (state : WorkflowState) (id : string)
    (interests : gmap string string) (vectors : list (list Q))
    (with_interests : list interest) (agg : list Q) : WorkflowState :=
  {| customer_id := id;
     user_interests := interests;
     user_vectors := vectors;
     user_vectors_with_interests := with_interests;
     user_vector_agg := agg;
     ad_url := ad_url state;
     ad_url_agg := "";
     product := "";
     product_agg := "";
     similarity_score := 0;
     similarity_score_agg := 0;
     play_ad := false;
     play_ad_agg := false;
     top_recommendations := [];
     top_recommendations_agg := [] |}.

Definition agent_1_empty (state : WorkflowState) : WorkflowState :=
  agent_1_found state "" ∅ [] [] [].

Definition agent_1_node (env : environment) (state : WorkflowState)
    : WorkflowState :=
  if decide (choice env = "1") then
    if negb (endpoint_valid env) then agent_1_empty state
    else if negb (token_set env) then agent_1_empty state
    else
      match connect env with
      | Raises _ => agent_1_empty state
      | Returns _ =>
          match random_customer_id env with
          | None => agent_1_empty state
          | Some id =>
              if decide (id = "") then agent_1_empty state
              else if decide (random_user_vectors env = []) then
                agent_1_found state id (random_user_interests env) [] [] []
              else
                agent_1_found state id (random_user_interests env)
                  (random_user_vectors env)
                  (random_user_vectors_with_interests env)
                  (random_user_vector_agg env)
          end
      end
  else if decide (choice env = "2") then
    match connect env with
    | Raises _ => agent_1_empty state
    | Returns _ =>
        let id := dummy_facial_recognition in
        match users env id with
        | Raises _ => agent_1_empty state
        | Returns entries =>
            let interests :=
              match entries with
              | [] => <["InterestName" := "Unknown"]>
                        (<["InterestDescription" := "Placeholder interest"]> ∅)
              | _ => user_interests_of "Unknown" "Placeholder interest" entries
              end in
            let vectors :=
              filter (λ v, v ≠ []) ((λ e, default [] (entry_vector e)) <$> entries) in
            if decide (vectors = []) then
              agent_1_found state id interests [] [] []
            else
              agent_1_found state id interests vectors
                (vectors_with_interests_of entries)
                (aggregate_vectors vectors)
        end
    end
  else agent_1_empty state.

(** The dictionary returned by the two early exits and by the
    [except] clause of [agent_2_node]. *)
Definition agent_2_failed (state : WorkflowState) : WorkflowState :=
  {| customer_id := customer_id state;
     user_interests := user_interests state;
     user_vectors := user_vectors state;
     user_vectors_with_interests := user_vectors_with_interests state;
     user_vector_agg := user_vector_agg state;
     ad_url := "";
     ad_url_agg := "";
     product := "";
     product_agg := "";
     similarity_score := 0;
     similarity_score_agg := 0;
     play_ad := false;
     play_ad_agg := false;
     top_recommendations := [];
     top_recommendations_agg := [] |}.

(** The pool after the first sort, the product dedup and the second
    sort of the Selection Approach. *)
Definition deduplicated_recommendations (all_recommendations : list candidate)
    : list candidate :=
  sort_desc score_ltb (dedup_loop (sort_desc score_ltb all_recommendations) ∅ []).

(** The Selection Approach after the collection loop; [None] when the
    pool is empty, in which case [top_match] is never bound. *)
Definition selection_approach (all_recommendations : list candidate)
    : outcome (option (candidate * list Recommendation)) :=
  match all_recommendations with
  | [] => Returns None
  | _ =>
      match top_and_shortlist (deduplicated_recommendations all_recommendations) with
      | Raises e => Raises e
      | Returns r => Returns (Some r)
      end
  end.

(** The Aggregation Approach: [(ad_url_agg, product_agg,
    similarity_score_agg, top_recommendations_agg)]. *)
Definition aggregation_approach (find : ads_db) (user_vector_agg : list Q)
    : list (list Q) * outcome (string * string * Q * list Recommendation) :=
  match user_vector_agg with
  | [] => ([], Returns ("", "", 0%Q, []))
  | _ =>
      match find user_vector_agg with
      | Raises e => ([user_vector_agg], Raises e)
      | Returns [] => ([user_vector_agg], Returns ("", "", 0%Q, []))
      | Returns top_ads_agg =>
          match sort_desc score_ltb (vector_recommendations_of (-1) top_ads_agg) with
          | [] => ([user_vector_agg], Returns ("", "", 0%Q, []))
          | top_match_agg :: rest =>
              ([user_vector_agg],
               Returns (cand_url top_match_agg, cand_product top_match_agg,
                        cand_score top_match_agg,
                        shortlist_loop (top_match_agg :: rest) ∅ []))
          end
      end
  end.

(** The [try] block of [agent_2_node]. [all_ads] is the answer to the
    unfiltered listing that is only logged. The final log lines read
    [top_match], which is unbound when the pool was empty. *)
Definition agent_2_try (all_ads : outcome (list ad)) (find : ads_db)
    (state : WorkflowState) : list (list Q) * outcome WorkflowState :=
  match all_ads with
  | Raises e => ([], Raises e)
  | Returns _ =>
      match collect_loop find 0 (user_vectors_with_interests state) [] [] with
      | (queried, Raises e) => (queried, Raises e)
      | (queried, Returns all_recommendations) =>
          match selection_approach all_recommendations with
          | Raises e => (queried, Raises e)
          | Returns selection =>
              match aggregation_approach find (user_vector_agg state) with
              | (queried_agg, Raises e) => (queried ++ queried_agg, Raises e)
              | (queried_agg,
                 Returns (ad_url_agg, product_agg, similarity_score_agg,
                          top_recommendations_agg)) =>
                  match selection with
                  | None => (queried ++ queried_agg, Raises NameError)
                  | Some (top_match, top_recommendations) =>
                      (queried ++ queried_agg,
                       Returns
                         {| customer_id := customer_id state;
                            user_interests := user_interests state;
                            user_vectors := user_vectors state;
                            user_vectors_with_interests :=
                              user_vectors_with_interests state;
                            user_vector_agg := user_vector_agg state;
                            ad_url := cand_url top_match;
                            ad_url_agg := ad_url_agg;
                            product := cand_product top_match;
                            product_agg := product_agg;
                            similarity_score := cand_score top_match;
                            similarity_score_agg := similarity_score_agg;
                            play_ad := false;
                            play_ad_agg := false;
                            top_recommendations := top_recommendations;
                            top_recommendations_agg := top_recommendations_agg |})
                  end
              end
          end
      end
  end.

Definition agent_2_node (all_ads : outcome (list ad)) (find : ads_db)
    (state : WorkflowState) : list (list Q) * WorkflowState :=
  if decide (customer_id state = "") then ([], agent_2_failed state)
  else if decide (user_vectors state = []) then ([], agent_2_failed state)
  else
    match agent_2_try all_ads find state with
    | (queried, Returns result) => (queried, result)
    | (queried, Raises _) => (queried, agent_2_failed state)
    end.

Definition agent_3_node (state : WorkflowState) : WorkflowState :=
  let selection_ok := Qle_bool SIMILARITY_THRESHOLD (similarity_score state) in
  let aggregation_ok := Qle_bool SIMILARITY_THRESHOLD (similarity_score_agg state) in
  {| customer_id := customer_id state;
     user_interests := user_interests state;
     user_vectors := user_vectors state;
     user_vectors_with_interests := user_vectors_with_interests state;
     user_vector_agg := user_vector_agg state;
     ad_url := if selection_ok then ad_url state else DEFAULT_AD_URL;
     ad_url_agg := if aggregation_ok then ad_url_agg state else DEFAULT_AD_URL;
     product := if selection_ok then product state else DEFAULT_PRODUCT;
     product_agg := if aggregation_ok then product_agg state else DEFAULT_PRODUCT;
     similarity_score := similarity_score state;
     similarity_score_agg := similarity_score_agg state;
     play_ad := selection_ok;
     play_ad_agg := aggregation_ok;
     top_recommendations := top_recommendations state;
     top_recommendations_agg := top_recommendations_agg state |}.

Definition error_handler_node (state : WorkflowState) : WorkflowState :=
  {| customer_id := customer_id state;
     user_interests := user_interests state;
     user_vectors := user_vectors state;
     user_vectors_with_interests := user_vectors_with_interests state;
     user_vector_agg := user_vector_agg state;
     ad_url := DEFAULT_VIDEO_URL;
     ad_url_agg := DEFAULT_VIDEO_URL;
     product := "";
     product_agg := "";
     similarity_score := 0;
     similarity_score_agg := 0;
     play_ad := false;
     play_ad_agg := false;
     top_recommendations := [];
     top_recommendations_agg := [] |}.

Definition initial_state : WorkflowState :=
  {| customer_id := "";
     user_interests := ∅;
     user_vectors := [];
     user_vectors_with_interests := [];
     user_vector_agg := [];
     ad_url := "";
     ad_url_agg := "";
     product := "";
     product_agg := "";
     similarity_score := 0;
     similarity_score_agg := 0;
     play_ad := false;
     play_ad_agg := false;
     top_recommendations := [];
     top_recommendations_agg := [] |}.

(** [graph.invoke] of the compiled workflow, as [main] calls it. *)
Definition graph_invoke (env : environment) (all_ads : outcome (list ad))
    (find : ads_db) (state : WorkflowState) : list (list Q) * WorkflowState :=
  let s1 := agent_1_node env state in
  if decide (customer_id s1 = "") then ([], error_handler_node s1)
  else
    let '(queried, s2) := agent_2_node all_ads find s1 in
    (queried, agent_3_node s2).

(** *** [get_random_user_id] *)

(** A document as [get_random_user_id] reads it: only
    [random_doc["UserId"]], which raises [KeyError] when the key is
    absent. *)
Record document : Type := { UserId : option string }.

(** The [userinterests] collection as [get_random_user_id] uses it. *)
Record user_store : Type := {
  (** [collection.count_documents({}, upper_bound=1000)] *)
  count_documents : outcome Z;
  (** [collection.find({}, ..., sort={"UserId": 1}, skip=skip, limit=batch_size)] *)
  find_batch : Z → Z → outcome (list document);
  (** [collection.find({}, ..., limit=50)] *)
  find_page : outcome (list document);
  (** [collection.find_one({}, ...)] *)
  find_one : outcome (option document);
  (** [collection.find({"UserId": customer_id}, ...)] *)
  find_user : interests_db
}.

(** The draws of the [random] module. *)
Record dice : Type := {
  randint : Z → Z → Z;
  random_choice : list document → document
}.

(** The five-tuple [(customer_id, user_interests, user_vectors,
    user_vectors_with_interests, user_vector_agg)]. *)
Definition user_tuple : Type :=
  (option string * option (gmap string string) * list (list Q) *
   list interest * list Q)%type.

(** [return None, None, [], [], []] *)
Definition no_user : user_tuple := (None, None, [], [], []).

(** From [if not all_entries] to the [return] of each of the three
    methods; the three copies are the same. *)
Definition user_of_entries (customer_id : string) (all_entries : list entry)
    : user_tuple :=
  match all_entries with
  | [] => no_user
  | _ =>
      let user_interests := user_interests_of "" "" all_entries in
      let user_vectors :=
        filter (λ v, v ≠ []) ((λ e, default [] (entry_vector e)) <$> all_entries) in
      let user_vectors_with_interests := vectors_with_interests_of all_entries in
      if decide (user_vectors = []) then
        (Some customer_id, Some user_interests, [], [], [])
      else
        let user_vector_agg := aggregate_vectors user_vectors in
        if decide (user_vector_agg = []) then
          (Some customer_id, Some user_interests, user_vectors, [], [])
        else
          (Some customer_id, Some user_interests, user_vectors,
           user_vectors_with_interests, user_vector_agg)
  end.

(** One [try] block from [random_doc = random.choice(documents)] on.
    [None] stands for leaving the block without a [return]: an exception
    (every one is caught by [except Exception]) or no candidate
    document. *)
Definition user_of_document (store : user_store) (random_doc : document)
    : option user_tuple :=
  match UserId random_doc with
  | None => None
  | Some customer_id =>
      match find_user store customer_id with
      | Raises _ => None
      | Returns all_entries => Some (user_of_entries customer_id all_entries)
      end
  end.

Definition user_of_documents (store : user_store) (rnd : dice)
    (documents : outcome (list document)) : option user_tuple :=
  match documents with
  | Raises _ => None
  | Returns [] => None
  | Returns documents => user_of_document store (random_choice rnd documents)
  end.

(** Method 1: the skip-based draw. *)
Definition skip_method (store : user_store) (rnd : dice) (total_docs : Z)
    : option user_tuple :=
  let max_skip := if (1 <? total_docs) then Z.min (total_docs - 1) 100 else 0 in
  let skip := randint rnd 0 max_skip in
  let batch_size := Z.min 10 (total_docs - skip) in
  user_of_documents store rnd (find_batch store skip batch_size).

(** Method 2: the first page. *)
Definition page_method (store : user_store) (rnd : dice) : option user_tuple :=
  user_of_documents store rnd (find_page store).

(** Method 3: the first document. *)
Definition first_method (store : user_store) : option user_tuple :=
  match find_one store with
  | Raises _ => None
  | Returns None => None
  | Returns (Some doc) => user_of_document store doc
  end.

Definition get_random_user_id (store : user_store) (rnd : dice) : user_tuple :=
  match count_documents store with
  | Raises _ => no_user
  | Returns total_docs =>
      if decide (total_docs = 0) then no_user
      else
        match skip_method store rnd total_docs with
        | Some t => t
        | None =>
            match page_method store rnd with
            | Some t => t
            | None =>
                match first_method store with
                | Some t => t
                | None => no_user
                end
            end
        end
  end.

(** What [agent_1_node] reads from outside when the store and the draws
    are given: the tuple is the one [get_random_user_id] returns. *)
Definition environment_of (typed : string) (endpoint token : bool)
    (connection : outcome ()) (store : user_store) (rnd : dice) : environment :=
  let '(customer_id, user_interests, user_vectors,
        user_vectors_with_interests, user_vector_agg) :=
    get_random_user_id store rnd in
  {| choice := typed;
     endpoint_valid := endpoint;
     token_set := token;
     connect := connection;
     random_customer_id := customer_id;
     random_user_interests := default ∅ user_interests;
     random_user_vectors := user_vectors;
     random_user_vectors_with_interests := user_vectors_with_interests;
     random_user_vector_agg := user_vector_agg;
     users := find_user store |}.

(** *** [main] *)

(** The urls [main] hands to [webbrowser.open], in order; what it logs
    and prints is left out. *)
Definition opened_urls (result : WorkflowState) : list string :=
  (if decide (ad_url result ≠ "" ∧ play_ad result = true)
   then [ad_url result] else []) ++
  (if decide (ad_url_agg result ≠ "" ∧ play_ad_agg result = true)
   then [ad_url_agg result] else []).

Definition main (env : environment) (all_ads : outcome (list ad))
    (find : ads_db) : list string :=
  opened_urls (graph_invoke env all_ads find initial_state).2.

End V64.

(** * Vocabulary of the properties and sample inputs *)

(** The selection half of a v6.4 state and its aggregation half, as the
    validator treats them. *)
Definition V64_passes_selection (st st' : V64.WorkflowState) : Prop :=
  V64.play_ad st' = true ∧
  V64.ad_url st' = V64.ad_url st ∧
  V64.product st' = V64.product st ∧
  V64.similarity_score st' = V64.similarity_score st ∧
  V64.top_recommendations st' = V64.top_recommendations st.

Definition V64_passes_aggregation (st st' : V64.WorkflowState) : Prop :=
  V64.play_ad_agg st' = true ∧
  V64.ad_url_agg st' = V64.ad_url_agg st ∧
  V64.product_agg st' = V64.product_agg st ∧
  V64.similarity_score_agg st' = V64.similarity_score_agg st ∧
  V64.top_recommendations_agg st' = V64.top_recommendations_agg st.

(** The two scores named by the specification: exactly 0.7 plays the
    matched ad, 0.6999 falls back. *)
Definition state_with_score (s : Q) : V71.WorkflowState :=
  {| V71.customer_id := "c1";
     V71.user_interests := ∅;
     V71.user_vectors_with_interests := [];
     V71.ad_url := "https://ads.example/shoes&autoplay=1&mute=1";
     V71.product := "Shoes";
     V71.similarity_score := s;
     V71.play_ad := false;
     V71.top_recommendations :=
       [{| rec_url := "https://ads.example/shoes&autoplay=1&mute=1";
           rec_product := "Shoes"; rec_score := s |}] |}.

(** [better a b]: [a] has the higher score, or the same score and a
    vector index that is not higher. *)
Definition better (a b : candidate) : Prop :=
  (cand_score b < cand_score a)%Q ∨
  ((cand_score a == cand_score b)%Q ∧ cand_vector_idx a ≤ cand_vector_idx b).

(** The input order of a pool as the collector leaves it: vector indices
    never decrease. *)
Definition idx_le (a b : candidate) : Prop :=
  cand_vector_idx a ≤ cand_vector_idx b.

(** [dedup] holds one candidate per product of [pool], and it is one
    with the highest score of that product and, among those, with the
    lowest vector index. *)
Definition keeps_best_per_product (pool dedup : list candidate) : Prop :=
  NoDup (cand_product <$> dedup) ∧
  (∀ r, r ∈ dedup → r ∈ pool) ∧
  (∀ c, c ∈ pool →
     ∃ r, r ∈ dedup ∧ cand_product r = cand_product c ∧
          (cand_score c <= cand_score r)%Q ∧
          ((cand_score c == cand_score r)%Q →
           cand_vector_idx r ≤ cand_vector_idx c)).

Definition sorted_by_score_desc (l : list candidate) : Prop :=
  StronglySorted (λ a b, (cand_score b <= cand_score a)%Q) l.

(** The distinct urls of a list of candidates. *)
Definition urls_of (recs : list candidate) : gset string :=
  list_to_set (cand_url <$> recs).

Definition query_vector (v : interest) : list Q := v.1.1.

(** The index answers the query for [v]. *)
Definition answers (find : ads_db) (v : interest) : Prop :=
  ∃ top_ads, find (query_vector v) = Returns top_ads.

(** What the vector at position [idx] adds to the pool; a query that
    does not answer adds nothing. *)
Definition contribution (find : ads_db) (idx : Z) (v : interest) : list candidate :=
  match find (query_vector v) with
  | Returns top_ads => vector_recommendations_of idx top_ads
  | Raises _ => []
  end.

(** The merged candidate pool: the contributions of all vectors, in
    list order. *)
Fixpoint merged_pool (find : ads_db) (idx : Z) (vectors : list interest)
    : list candidate :=
  match vectors with
  | [] => []
  | v :: rest => contribution find idx v ++ merged_pool find (idx + 1) rest
  end.

(** Three interest vectors; the index finds nothing for the second. *)
Definition ad_shoes : ad :=
  {| ad_product := "Shoes"; video_link := "https://ads.example/shoes";
     similarity := 0.9 |}.
Definition ad_tent : ad :=
  {| ad_product := "Tent"; video_link := "https://ads.example/tent";
     similarity := 0.8 |}.

Definition three_vectors : list interest :=
  [([1%Q], "Running", "Trail running");
   ([2%Q], "Chess", "Openings");
   ([3%Q], "Camping", "Tents")].

Definition find_nothing_for_second : ads_db :=
  λ v, match v with
       | [x] => if Qeq_bool x 1 then Returns [ad_shoes]
                else if Qeq_bool x 2 then Returns []
                else Returns [ad_tent]
       | _ => Raises DBError
       end.


(** The index fails on the first of two vectors and answers the second. *)
Definition two_vectors : list interest :=
  [([1%Q], "Running", "Trail running"); ([3%Q], "Camping", "Tents")].

Definition find_fails_on_first : ads_db :=
  λ v, match v with
       | [x] => if Qeq_bool x 1 then Raises DBError else Returns [ad_tent]
       | _ => Raises DBError
       end.


Definition v64_state_with (vectors : list interest) : V64.WorkflowState :=
  {| V64.customer_id := "c1";
     V64.user_interests := ∅;
     V64.user_vectors := query_vector <$> vectors;
     V64.user_vectors_with_interests := vectors;
     V64.user_vector_agg := V64.aggregate_vectors (query_vector <$> vectors);
     V64.ad_url := "";
     V64.ad_url_agg := "";
     V64.product := "";
     V64.product_agg := "";
     V64.similarity_score := 0;
     V64.similarity_score_agg := 0;
     V64.play_ad := false;
     V64.play_ad_agg := false;
     V64.top_recommendations := [];
     V64.top_recommendations_agg := [] |}.

(** Two vectors find the same product, at 0.85 and at 0.65, and a second
    product twice at 0.8: the 0.85 instance is kept and comes first, and
    the tie at 0.8 goes to the lower vector index. *)
Definition pool_same_product : list candidate :=
  [{| cand_url := "https://ads.example/tent-b&autoplay=1&mute=1";
      cand_product := "Tent"; cand_score := 0.8; cand_vector_idx := 1 |};
   {| cand_url := "https://ads.example/shoes&autoplay=1&mute=1";
      cand_product := "Shoes"; cand_score := 0.65; cand_vector_idx := 1 |};
   {| cand_url := "https://ads.example/shoes&autoplay=1&mute=1";
      cand_product := "Shoes"; cand_score := 0.85; cand_vector_idx := 0 |};
   {| cand_url := "https://ads.example/tent-a&autoplay=1&mute=1";
      cand_product := "Tent"; cand_score := 0.8; cand_vector_idx := 0 |}].

(** Seven candidates of six products on five urls. *)
Definition pool_seven : list candidate :=
  [{| cand_url := "u1"; cand_product := "A"; cand_score := 0.9; cand_vector_idx := 0 |};
   {| cand_url := "u1"; cand_product := "B"; cand_score := 0.85; cand_vector_idx := 0 |};
   {| cand_url := "u2"; cand_product := "C"; cand_score := 0.8; cand_vector_idx := 0 |};
   {| cand_url := "u3"; cand_product := "A"; cand_score := 0.95; cand_vector_idx := 1 |};
   {| cand_url := "u4"; cand_product := "D"; cand_score := 0.7; cand_vector_idx := 1 |};
   {| cand_url := "u5"; cand_product := "E"; cand_score := 0.6; cand_vector_idx := 1 |};
   {| cand_url := "u2"; cand_product := "F"; cand_score := 0.5; cand_vector_idx := 2 |}].

(** One customer with one interest vector; the best match of the index
    scores 0.5. *)
Definition one_customer : interests_db :=
  λ id, if decide (id = "c1")
        then Returns [{| InterestName := Some "Running";
                         InterestDescription := Some "Trail running";
                         entry_vector := Some [1%Q] |}]
        else Returns [].

Definition find_low_score : ads_db :=
  λ _, Returns [{| ad_product := "Shoes";
                   video_link := "https://ads.example/shoes";
                   similarity := 0.5 |}].

(** The operator types a choice that is neither "1" nor "2". *)
Definition env_invalid_choice : V64.environment :=
  {| V64.choice := "3";
     V64.endpoint_valid := true;
     V64.token_set := true;
     V64.connect := Returns ();
     V64.random_customer_id := None;
     V64.random_user_interests := ∅;
     V64.random_user_vectors := [];
     V64.random_user_vectors_with_interests := [];
     V64.random_user_vector_agg := [];
     V64.users := one_customer |}.

(** The state in which the low-score run of v7.1 ends. *)
Definition low_score_result : V71.WorkflowState :=
  {| V71.customer_id := "c1";
     V71.user_interests :=
       <["InterestName" := "Running"]>
         (<["InterestDescription" := "Trail running"]> ∅);
     V71.user_vectors_with_interests := [([1%Q], "Running", "Trail running")];
     V71.ad_url := DEFAULT_AD_URL;
     V71.product := DEFAULT_PRODUCT;
     V71.similarity_score := 0;
     V71.play_ad := false;
     V71.top_recommendations := [] |}.



(** An interest store without the customer, one whose only record has no
    vector, and an index that finds nothing. *)
Definition no_records : interests_db := λ _, Returns [].

Definition record_without_vector : interests_db :=
  λ _, Returns [{| InterestName := Some "Running";
                   InterestDescription := Some "Trail running";
                   entry_vector := None |}].

Definition find_nothing : ads_db := λ _, Returns [].

(** One interest vector; the index returns three products at 0.9, 0.8 and
    0.75. Both services answer 200 with the 0.9 match and a shortlist of
    three, and the v7.1 workflow approves the ad. *)
Definition find_three : ads_db :=
  λ _, Returns
    [{| ad_product := "Shoes"; video_link := "https://ads.example/shoes";
        similarity := 0.9 |};
     {| ad_product := "Tent"; video_link := "https://ads.example/tent";
        similarity := 0.8 |};
     {| ad_product := "Stove"; video_link := "https://ads.example/stove";
        similarity := 0.75 |}].

Definition three_recommendations : list Recommendation :=
  [{| rec_url := "https://ads.example/shoes&autoplay=1&mute=1";
      rec_product := "Shoes"; rec_score := 0.9 |};
   {| rec_url := "https://ads.example/tent&autoplay=1&mute=1";
      rec_product := "Tent"; rec_score := 0.8 |};
   {| rec_url := "https://ads.example/stove&autoplay=1&mute=1";
      rec_product := "Stove"; rec_score := 0.75 |}].

(** ** Vocabulary of the further properties *)

(** The candidate the inner loop builds from one advertisement. *)
Definition candidate_of (idx : Z) (a : ad) : candidate :=
  {| cand_url := playback_url (video_link a);
     cand_product := ad_product a;
     cand_score := similarity a;
     cand_vector_idx := idx |}.

(** A url the pipeline can play: a non-empty link followed by the
    autoplay parameters. *)
Definition playable (u : string) : Prop :=
  ∃ link, link ≠ "" ∧ u = link +:+ "&autoplay=1&mute=1".

Definition sorted_recommendations (l : list Recommendation) : Prop :=
  StronglySorted (λ a b, (rec_score b <= rec_score a)%Q) l.

(** One query answered with a repeated product and with a missing
    link. *)
Definition ads_with_repeats : list ad :=
  [{| ad_product := "Shoes"; video_link := ""; similarity := 0.95 |};
   {| ad_product := "Shoes"; video_link := "https://ads.example/shoes";
      similarity := 0.9 |};
   {| ad_product := "Tent"; video_link := "https://ads.example/tent";
      similarity := 0.8 |};
   {| ad_product := "Shoes"; video_link := "https://ads.example/shoes-2";
      similarity := 0.7 |}].

(** Two vectors whose answers tie at 0.8 on the same product. *)
Definition find_tie : ads_db :=
  λ v, match v with
       | [x] => if Qeq_bool x 1
                then Returns [{| ad_product := "Tent";
                                 video_link := "https://ads.example/tent-a";
                                 similarity := 0.8 |}]
                else Returns [{| ad_product := "Shoes";
                                 video_link := "https://ads.example/shoes";
                                 similarity := 0.85 |};
                              {| ad_product := "Tent";
                                 video_link := "https://ads.example/tent-b";
                                 similarity := 0.8 |}]
       | _ => Raises DBError
       end.

(** The ways a request can go, as both endpoints see them: the store
    fails, the customer has no record, no record has a vector, a step
    after the fetch raises [e] after the queries [queried], no vector
    finds an advertisement, or a top match and a shortlist are selected. *)
Inductive request_case : Type :=
  | StoreFails (e : exn)
  | NoRecords
  | NoVector
  | StepFails (queried : list (list Q)) (e : exn)
  | NoAdvertisement (queried : list (list Q))
  | Selected (queried : list (list Q)) (entries : list entry)
      (top : candidate) (shortlist : list Recommendation).

Definition classify (users : interests_db) (find : ads_db) (uid : string)
    : request_case :=
  match users uid with
  | Raises e => StoreFails e
  | Returns [] => NoRecords
  | Returns entries =>
      match vectors_with_interests_of entries with
      | [] => NoVector
      | vectors =>
          match collect_loop find 0 vectors [] [] with
          | (queried, Raises e) => StepFails queried e
          | (queried, Returns []) => NoAdvertisement queried
          | (queried, Returns pool) =>
              match top_and_shortlist
                      (dedup_loop (sort_desc score_idx_ltb pool) ∅ []) with
              | Raises e => StepFails queried e
              | Returns (top, shortlist) =>
                  Selected queried entries top shortlist
              end
          end
      end
  end.

(** The body both services send for a selected match. *)
Definition body_of (uid : string) (entries : list entry) (top : candidate)
    (shortlist : list Recommendation) : Api.RecommendationResponse :=
  {| Api.customer_id := uid;
     Api.user_interests := user_interests_of "" "" entries;
     Api.selection_approach :=
       {| Api.top_ad := to_recommendation top;
          Api.top_recommendations := shortlist |} |}.

(** The database clients raise their own errors, never FastAPI's
    [HTTPException]. *)
Definition no_http_exception (users : interests_db) (find : ads_db) : Prop :=
  (∀ id status_code, users id ≠ Raises (HTTPException status_code)) ∧
  (∀ v status_code, find v ≠ Raises (HTTPException status_code)).

Definition status_of (r : http_response) : Z :=
  match r with
  | HTTP_200 _ => 200
  | HTTP_error status_code => status_code
  end.

(** The non-empty vectors of the customer's records, in the order of the
    store's answer; nothing when the store fails. *)
Definition usable_vectors (users : interests_db) (uid : string) : list (list Q) :=
  match users uid with
  | Returns entries =>
      filter (λ v, v ≠ []) ((λ e, default [] (entry_vector e)) <$> entries)
  | Raises _ => []
  end.

(** A customer with three records, the second without a vector. *)
Definition customer_three_records : interests_db :=
  λ _, Returns [{| InterestName := Some "Running";
                   InterestDescription := Some "Trail running";
                   entry_vector := Some [1%Q] |};
                {| InterestName := Some "Chess";
                   InterestDescription := None;
                   entry_vector := Some [] |};
                {| InterestName := Some "Camping";
                   InterestDescription := Some "Tents";
                   entry_vector := Some [3%Q] |}].

(** The index has an advertisement for the aggregated vector [[2]] only. *)
Definition find_for_aggregate_only : ads_db :=
  λ v, match v with
       | [x] => if Qeq_bool x 2 then Returns [ad_shoes] else Returns []
       | _ => Raises DBError
       end.

(** The operator chooses facial recognition; the store knows the
    recognised customer. *)
Definition env_face : V64.environment :=
  {| V64.choice := "2";
     V64.endpoint_valid := true;
     V64.token_set := true;
     V64.connect := Returns ();
     V64.random_customer_id := None;
     V64.random_user_interests := ∅;
     V64.random_user_vectors := [];
     V64.random_user_vectors_with_interests := [];
     V64.random_user_vector_agg := [];
     V64.users := customer_three_records |}.

(** The invariant of the tuple [get_random_user_id] returns. *)
Definition user_tuple_ok (t : V64.user_tuple) : Prop :=
  let '(customer_id, user_interests, user_vectors,
        user_vectors_with_interests, user_vector_agg) := t in
  (customer_id = None →
   user_interests = None ∧ user_vectors = [] ∧
   user_vectors_with_interests = [] ∧ user_vector_agg = []) ∧
  (is_Some customer_id ↔ is_Some user_interests) ∧
  Forall (λ v, v ≠ []) user_vectors ∧
  (user_vectors_with_interests ≠ [] ↔ user_vector_agg ≠ []) ∧
  (user_vectors_with_interests ≠ [] →
   query_vector <$> user_vectors_with_interests = user_vectors ∧
   user_vector_agg = V64.aggregate_vectors user_vectors).

(** A store with two documents of one customer whose two vectors have
    different lengths, and draws that always take the first option. *)
Definition ragged_store : V64.user_store :=
  {| V64.count_documents := Returns 2;
     V64.find_batch := λ _ _, Returns [{| V64.UserId := Some "c7" |};
                                       {| V64.UserId := Some "c7" |}];
     V64.find_page := Returns [];
     V64.find_one := Returns None;
     V64.find_user :=
       λ _, Returns [{| InterestName := Some "Running";
                        InterestDescription := Some "Trail running";
                        entry_vector := Some [1%Q; 2%Q] |};
                     {| InterestName := Some "Chess";
                        InterestDescription := Some "Openings";
                        entry_vector := Some [3%Q] |}] |}.

Definition first_choice : V64.dice :=
  {| V64.randint := λ low _, low;
     V64.random_choice := λ docs, default {| V64.UserId := None |} (head docs) |}.

(** The invariant of the customer data in the state that
    [agent_1_node] of v6.4 returns. *)
Definition V64_customer_ok (s : V64.WorkflowState) : Prop :=
  Forall (λ v, v ≠ []) (V64.user_vectors s) ∧
  (V64.customer_id s = "" →
   V64.user_interests s = ∅ ∧ V64.user_vectors s = []) ∧
  (V64.user_vectors s = [] →
   V64.user_vectors_with_interests s = [] ∧ V64.user_vector_agg s = []) ∧
  (V64.user_vectors_with_interests s ≠ [] →
   query_vector <$> V64.user_vectors_with_interests s = V64.user_vectors s) ∧
  (V64.user_vector_agg s ≠ [] →
   V64.user_vectors_with_interests s ≠ [] ∧
   V64.user_vector_agg s = V64.aggregate_vectors (V64.user_vectors s)).

(** The queries a run of v6.4 issues when nothing fails: one for each of
    the customer's vectors, then one for the aggregated vector if there
    is one. *)
Definition V64_all_queries (s : V64.WorkflowState) : list (list Q) :=
  V64.user_vectors s ++
  (if decide (V64.user_vector_agg s = []) then []
   else [V64.aggregate_vectors (V64.user_vectors s)]).

(** A candidate with its [vector_idx] replaced. *)
Definition with_idx (idx : Z) (c : candidate) : candidate :=
  {| cand_url := cand_url c; cand_product := cand_product c;
     cand_score := cand_score c; cand_vector_idx := idx |}.

(** The two approaches of a v6.4 state report the same. *)
Definition V64_approaches_agree (s : V64.WorkflowState) : Prop :=
  V64.ad_url s = V64.ad_url_agg s ∧
  V64.product s = V64.product_agg s ∧
  V64.similarity_score s = V64.similarity_score_agg s ∧
  V64.play_ad s = V64.play_ad_agg s ∧
  V64.top_recommendations s = V64.top_recommendations_agg s.

(** The recognised customer has one record. *)
Definition env_single_record : V64.environment :=
  {| V64.choice := "2";
     V64.endpoint_valid := true;
     V64.token_set := true;
     V64.connect := Returns ();
     V64.random_customer_id := None;
     V64.random_user_interests := ∅;
     V64.random_user_vectors := [];
     V64.random_user_vectors_with_interests := [];
     V64.random_user_vector_agg := [];
     V64.users := λ _, Returns [{| InterestName := Some "Running";
                                   InterestDescription := Some "Trail running";
                                   entry_vector := Some [1%Q; 2%Q] |}] |}.

(** * Properties *)

(** ** Comparisons on scores *)

Lemma Qle_bool_true (x y : Q) : Qle_bool x y = true ↔ (x <= y)%Q.
Proof. apply Qle_bool_iff. Qed.

Lemma Qle_bool_false (x y : Q) : Qle_bool x y = false ↔ (y < x)%Q.
Proof.
  split.
  - intros Hb. apply Qnot_le_lt. intros Hle.
    apply Qle_bool_iff in Hle. congruence.
  - intros Hlt. destruct (Qle_bool x y) eqn:Hb; [|reflexivity].
    apply Qle_bool_iff in Hb. exfalso. eapply Qlt_not_le; eassumption.
Qed.

(** ** The threshold validator *)

(** C1. The boundary of the threshold validator is inclusive. In v7.1 a
    state whose score is at least 0.7 comes back unchanged except for
    [play_ad = true]; a score below 0.7 gives [play_ad = false] with the
    default-ad url and "Generic Product". In v6.4 the same holds for the
    selection fields and, independently, for the aggregation fields. *)
Theorem C1_threshold_inclusive :
  (∀ st : V71.WorkflowState,
     ((SIMILARITY_THRESHOLD <= V71.similarity_score st)%Q →
      V71.agent_3_node st =
        {| V71.customer_id := V71.customer_id st;
           V71.user_interests := V71.user_interests st;
           V71.user_vectors_with_interests := V71.user_vectors_with_interests st;
           V71.ad_url := V71.ad_url st;
           V71.product := V71.product st;
           V71.similarity_score := V71.similarity_score st;
           V71.play_ad := true;
           V71.top_recommendations := V71.top_recommendations st |}) ∧
     ((V71.similarity_score st < SIMILARITY_THRESHOLD)%Q →
      V71.play_ad (V71.agent_3_node st) = false ∧
      V71.ad_url (V71.agent_3_node st) = DEFAULT_AD_URL ∧
      V71.product (V71.agent_3_node st) = DEFAULT_PRODUCT)) ∧
  (∀ st : V64.WorkflowState,
     ((SIMILARITY_THRESHOLD <= V64.similarity_score st)%Q →
      V64_passes_selection st (V64.agent_3_node st)) ∧
     ((V64.similarity_score st < SIMILARITY_THRESHOLD)%Q →
      V64.play_ad (V64.agent_3_node st) = false ∧
      V64.ad_url (V64.agent_3_node st) = DEFAULT_AD_URL ∧
      V64.product (V64.agent_3_node st) = DEFAULT_PRODUCT) ∧
     ((SIMILARITY_THRESHOLD <= V64.similarity_score_agg st)%Q →
      V64_passes_aggregation st (V64.agent_3_node st)) ∧
     ((V64.similarity_score_agg st < SIMILARITY_THRESHOLD)%Q →
      V64.play_ad_agg (V64.agent_3_node st) = false ∧
      V64.ad_url_agg (V64.agent_3_node st) = DEFAULT_AD_URL ∧
      V64.product_agg (V64.agent_3_node st) = DEFAULT_PRODUCT)).
Proof.
  split; intros st.
  - split; intros Hs; unfold V71.agent_3_node.
    + apply Qle_bool_true in Hs. rewrite Hs. reflexivity.
    + apply Qle_bool_false in Hs. rewrite Hs. simpl. auto.
  - unfold V64_passes_selection, V64_passes_aggregation, V64.agent_3_node.
    split; [|split; [|split]]; intros Hs; simpl;
      first [ apply Qle_bool_true in Hs | apply Qle_bool_false in Hs ];
      rewrite Hs; auto.
Qed.

Lemma C1_threshold_inclusive_witness :
  (V71.play_ad (V71.agent_3_node (state_with_score 0.7)) = true ∧
   V71.product (V71.agent_3_node (state_with_score 0.7)) = "Shoes") ∧
  (V71.play_ad (V71.agent_3_node (state_with_score 0.6999)) = false ∧
   V71.ad_url (V71.agent_3_node (state_with_score 0.6999)) = DEFAULT_AD_URL ∧
   V71.product (V71.agent_3_node (state_with_score 0.6999)) = DEFAULT_PRODUCT).
Proof.
  split.
  - pose proof (proj1 (proj1 C1_threshold_inclusive (state_with_score 0.7))) as H.
    rewrite H; [split; reflexivity|].
    unfold SIMILARITY_THRESHOLD. simpl. apply Qle_refl.
  - apply (proj2 (proj1 C1_threshold_inclusive (state_with_score 0.6999))).
    reflexivity.
Defined.

(** ** The stable descending sort *)

Section StableSortFacts.
Context {A : Type} (ltb : A → A → bool).

Lemma insert_desc_perm (x : A) (l : list A) : insert_desc ltb x l ≡ₚ x :: l.
Proof.
  induction l as [|y l IH]; simpl; [reflexivity|].
  destruct (ltb x y); [|reflexivity].
  rewrite IH. apply Permutation_swap.
Qed.

Lemma sort_desc_perm (l : list A) : sort_desc ltb l ≡ₚ l.
Proof.
  induction l as [|x l IH]; simpl; [reflexivity|].
  rewrite insert_desc_perm. by rewrite IH.
Qed.

Lemma elem_of_sort_desc (x : A) (l : list A) : x ∈ sort_desc ltb l ↔ x ∈ l.
Proof. by rewrite sort_desc_perm. Qed.

Lemma sort_desc_nil_inv (l : list A) : sort_desc ltb l = [] → l = [].
Proof.
  intros H. apply Permutation_nil_r. rewrite <- H. symmetry. apply sort_desc_perm.
Qed.

(** [R] is the order in which the sorted list must come out; [P] is what
    is known of the order of the input. *)
Context (R P : A → A → Prop).
Hypothesis lt_R : ∀ x y, ltb x y = true → R y x.
Hypothesis ge_R : ∀ x y, P x y → ltb x y = false → R x y.
Hypothesis ge_trans : ∀ x y z, ltb x y = false → R y z → ltb x z = false.

Lemma insert_desc_sorted (x : A) (l : list A) :
  Forall (P x) l → StronglySorted R l → StronglySorted R (insert_desc ltb x l).
Proof.
  intros HP Hl. induction Hl as [|y l Hl IH Hy]; simpl.
  - repeat constructor.
  - apply Forall_cons in HP as [HPy HP].
    destruct (ltb x y) eqn:Hxy.
    + constructor; [by apply IH|].
      rewrite insert_desc_perm. constructor; [by apply lt_R|done].
    + constructor; [by constructor|].
      constructor; [by apply ge_R|].
      rewrite Forall_forall in Hy, HP |- *. intros z Hz.
      apply ge_R; [by apply HP|]. eapply ge_trans; [exact Hxy|]. by apply Hy.
Qed.

Lemma sort_desc_sorted (l : list A) :
  StronglySorted P l → StronglySorted R (sort_desc ltb l).
Proof.
  induction 1 as [|x l Hl IH Hx]; simpl; [constructor|].
  apply insert_desc_sorted; [|done].
  by rewrite sort_desc_perm.
Qed.

(** Sorting a list that is already in order changes nothing (the second
    sort of v6.4). *)
Lemma sort_desc_id (l : list A) :
  StronglySorted (λ x y, ltb x y = false) l → sort_desc ltb l = l.
Proof.
  induction 1 as [|x l Hl IH Hx]; simpl; [done|].
  rewrite IH. destruct l as [|y l]; simpl; [done|].
  apply Forall_cons in Hx as [-> _]. done.
Qed.

End StableSortFacts.

(** ** The order of the selector *)

Lemma better_score (a b : candidate) :
  better a b → (cand_score b <= cand_score a)%Q.
Proof.
  intros [Hlt|[Heq _]]; [by apply Qlt_le_weak|].
  rewrite Heq. apply Qle_refl.
Qed.

Lemma better_tie (a b : candidate) :
  better a b → (cand_score a == cand_score b)%Q →
  cand_vector_idx a ≤ cand_vector_idx b.
Proof.
  intros [Hlt|[_ Hidx]] Heq; [|done].
  rewrite Heq in Hlt. by apply Qlt_irrefl in Hlt.
Qed.

Lemma score_ltb_true (x y : candidate) :
  score_ltb x y = true ↔ (cand_score x < cand_score y)%Q.
Proof. unfold score_ltb. rewrite negb_true_iff. apply Qle_bool_false. Qed.

Lemma score_ltb_false (x y : candidate) :
  score_ltb x y = false ↔ (cand_score y <= cand_score x)%Q.
Proof. unfold score_ltb. rewrite negb_false_iff. apply Qle_bool_true. Qed.

Lemma score_idx_ltb_true (x y : candidate) :
  score_idx_ltb x y = true ↔
  (cand_score x < cand_score y)%Q ∨
  ((cand_score x == cand_score y)%Q ∧ cand_vector_idx y < cand_vector_idx x).
Proof.
  unfold score_idx_ltb. destruct (Qeq_bool _ _) eqn:He.
  - apply Qeq_bool_iff in He. rewrite Z.ltb_lt. split.
    + intros H. right. split; [done|lia].
    + intros [H|[_ H]]; [|lia]. rewrite He in H. by apply Qlt_irrefl in H.
  - apply Qeq_bool_neq in He. rewrite negb_true_iff, Qle_bool_false. split.
    + by left.
    + intros [H|[H _]]; done.
Qed.

Lemma score_idx_ltb_false (x y : candidate) :
  score_idx_ltb x y = false ↔ better x y.
Proof.
  rewrite <- not_true_iff_false, score_idx_ltb_true. unfold better. split.
  - intros Hn.
    destruct (Q_dec (cand_score x) (cand_score y)) as [[Hlt|Hgt]|Heq].
    + destruct Hn. by left.
    + by left.
    + right. split; [done|].
      destruct (decide (cand_vector_idx x ≤ cand_vector_idx y)); [done|].
      destruct Hn. right. split; [done|lia].
  - intros [Hgt|[Heq Hidx]] [Hlt|[Heq' Hidx']].
    + eapply Qlt_irrefl, Qlt_trans; eassumption.
    + rewrite Heq' in Hgt. by apply Qlt_irrefl in Hgt.
    + rewrite Heq in Hlt. by apply Qlt_irrefl in Hlt.
    + lia.
Qed.

Lemma better_trans (x y z : candidate) : better x y → better y z → better x z.
Proof.
  unfold better. intros [H1|[E1 I1]] [H2|[E2 I2]].
  - left. eapply Qlt_trans; eassumption.
  - left. by rewrite <- E2.
  - left. by rewrite E1.
  - right. split; [by rewrite E1|lia].
Qed.

(** v7.0 and v7.1: whatever the order of the pool, the sort on
    [(score, -vector_idx)] leaves it ordered by [better]. *)
Lemma sort_score_idx_sorted (pool : list candidate) :
  StronglySorted better (sort_desc score_idx_ltb pool).
Proof.
  apply (sort_desc_sorted score_idx_ltb better (λ _ _, True)).
  - intros x y H. apply score_idx_ltb_true in H as [H|[E I]].
    + by left.
    + right. split; [by symmetry|lia].
  - intros x y _ H. by apply score_idx_ltb_false.
  - intros x y z Hxy Hyz. apply score_idx_ltb_false.
    apply score_idx_ltb_false in Hxy. by eapply better_trans.
  - induction pool; constructor; [done|]. by apply Forall_true.
Qed.

(** v6.4: the sort on the score alone is stable, so a pool in collection
    order comes out ordered by [better] as well. *)
Lemma sort_score_sorted (pool : list candidate) :
  StronglySorted idx_le pool →
  StronglySorted better (sort_desc score_ltb pool).
Proof.
  apply (sort_desc_sorted score_ltb better idx_le).
  - intros x y H. apply score_ltb_true in H. by left.
  - intros x y Hidx H. apply score_ltb_false in H.
    destruct (Qle_lt_or_eq _ _ H) as [Hlt|Heq]; [by left|].
    right. split; [by symmetry|done].
  - intros x y z Hxy Hyz. apply score_ltb_false.
    apply score_ltb_false in Hxy. apply better_score in Hyz.
    eapply Qle_trans; eassumption.
Qed.

(** ** The product dedup *)

Lemma dedup_loop_acc (recs : list candidate) (seen : gset string)
    (acc : list candidate) :
  dedup_loop recs seen acc = acc ++ dedup_loop recs seen [].
Proof.
  revert seen acc. induction recs as [|r rest IH]; intros seen acc; simpl.
  - by rewrite app_nil_r.
  - case_decide; [apply IH|].
    rewrite IH, (IH _ [r]). by rewrite <- app_assoc.
Qed.

Lemma dedup_loop_cons (r : candidate) (rest : list candidate) (seen : gset string) :
  dedup_loop (r :: rest) seen [] =
    if decide (cand_product r ∈ seen) then dedup_loop rest seen []
    else r :: dedup_loop rest ({[cand_product r]} ∪ seen) [].
Proof. simpl. case_decide; [done|]. by rewrite dedup_loop_acc. Qed.

Lemma dedup_loop_elem (r : candidate) (recs : list candidate) (seen : gset string) :
  r ∈ dedup_loop recs seen [] → r ∈ recs ∧ cand_product r ∉ seen.
Proof.
  revert seen. induction recs as [|r0 rest IH]; intros seen.
  - simpl. by intros ?%elem_of_nil.
  - rewrite dedup_loop_cons. case_decide as Hin.
    + intros Hr. apply IH in Hr as [? ?]. split; [by right|done].
    + intros [->|Hr]%elem_of_cons.
      * split; [by left|done].
      * apply IH in Hr as [? ?]. split; [by right|set_solver].
Qed.

Lemma dedup_loop_NoDup (recs : list candidate) (seen : gset string) :
  NoDup (cand_product <$> dedup_loop recs seen []).
Proof.
  revert seen. induction recs as [|r0 rest IH]; intros seen.
  - simpl. constructor.
  - rewrite dedup_loop_cons. case_decide as Hin; [apply IH|].
    rewrite fmap_cons. constructor; [|apply IH].
    intros (r & Hp & Hr)%list_elem_of_fmap.
    apply dedup_loop_elem in Hr as [_ Hr]. set_solver.
Qed.

Lemma dedup_loop_sublist (recs : list candidate) (seen : gset string) :
  dedup_loop recs seen [] `sublist_of` recs.
Proof.
  revert seen. induction recs as [|r0 rest IH]; intros seen.
  - simpl. constructor.
  - rewrite dedup_loop_cons. case_decide.
    + by apply sublist_cons.
    + by apply sublist_skip.
Qed.

Lemma StronglySorted_sublist {A : Type} (R : A → A → Prop) (k l : list A) :
  k `sublist_of` l → StronglySorted R l → StronglySorted R k.
Proof.
  induction 1 as [|x k l Hkl IH|x k l Hkl IH]; intros Hl.
  - constructor.
  - apply StronglySorted_inv in Hl as [Hl Hx]. constructor; [by apply IH|].
    rewrite Forall_forall in Hx |- *. intros y Hy. apply Hx.
    eapply elem_of_sublist; eassumption.
  - apply StronglySorted_inv in Hl as [Hl _]. by apply IH.
Qed.

(** Every candidate whose product is not yet seen is represented in the
    result by the first candidate of that product, which stands before it
    in the list. *)
Lemma dedup_loop_covers (R : candidate → candidate → Prop)
    (recs : list candidate) (seen : gset string) (c : candidate) :
  StronglySorted R recs → c ∈ recs → cand_product c ∉ seen →
  ∃ r, r ∈ dedup_loop recs seen [] ∧ cand_product r = cand_product c ∧
       (r = c ∨ R r c).
Proof.
  intros Hs. revert seen. induction Hs as [|r0 rest Hs IH Hr0]; intros seen Hc Hp.
  - by apply elem_of_nil in Hc.
  - rewrite dedup_loop_cons. apply elem_of_cons in Hc as [->|Hc].
    + rewrite decide_False by done. exists r0. split; [by left|by split; [|left]].
    + case_decide as Hin; [by apply IH|].
      destruct (decide (cand_product c = cand_product r0)) as [Heq|Hne].
      * exists r0. split; [by left|]. split; [done|]. right.
        rewrite Forall_forall in Hr0. by apply Hr0.
      * destruct (IH ({[cand_product r0]} ∪ seen) Hc) as (r & Hr & Hpr & HR);
          [set_solver|].
        exists r. split; [by right|done].
Qed.

Lemma dedup_loop_head (r : candidate) (rest : list candidate) :
  dedup_loop (r :: rest) ∅ [] = r :: dedup_loop rest ({[cand_product r]} ∪ ∅) [].
Proof. rewrite dedup_loop_cons. by rewrite decide_False by set_solver. Qed.

(** ** What the selector keeps *)

Lemma better_sorted_by_score (l : list candidate) :
  StronglySorted better l → sorted_by_score_desc l.
Proof.
  induction 1 as [|x l Hl IH Hx]; constructor; [done|].
  eapply Forall_impl; [exact Hx|]. intros y. apply better_score.
Qed.

Lemma dedup_of_sorted_keeps_best (pool sorted : list candidate) :
  sorted ≡ₚ pool → StronglySorted better sorted →
  keeps_best_per_product pool (dedup_loop sorted ∅ []) ∧
  sorted_by_score_desc (dedup_loop sorted ∅ []).
Proof.
  intros Hperm Hs. split; [split; [|split]|].
  - apply dedup_loop_NoDup.
  - intros r [Hr _]%dedup_loop_elem. by rewrite <- Hperm.
  - intros c Hc. rewrite <- Hperm in Hc.
    destruct (dedup_loop_covers better sorted ∅ c Hs Hc) as (r & Hr & Hp & HR);
      [set_solver|].
    exists r. split; [done|]. split; [done|].
    destruct HR as [->|HR].
    + split; [apply Qle_refl|lia].
    + split; [by apply better_score|].
      intros Heq. apply better_tie; [done|by symmetry].
  - apply better_sorted_by_score.
    eapply StronglySorted_sublist; [apply dedup_loop_sublist|done].
Qed.

(** ** The shortlist *)

Lemma urls_of_cons (r : candidate) (recs : list candidate) :
  urls_of (r :: recs) = {[cand_url r]} ∪ urls_of recs.
Proof. done. Qed.

Lemma size_fresh_url (u : string) (X seen : gset string) :
  u ∉ seen →
  size (({[u]} ∪ X) ∖ seen) = S (size (X ∖ ({[u]} ∪ seen))).
Proof.
  intros Hu.
  assert (({[u]} ∪ X) ∖ seen = {[u]} ∪ (X ∖ ({[u]} ∪ seen))) as ->.
  { apply set_eq. intros x.
    rewrite !elem_of_difference, !elem_of_union, !elem_of_difference,
      elem_of_union, !elem_of_singleton.
    destruct (decide (x = u)); naive_solver. }
  rewrite size_union by set_solver. by rewrite size_singleton.
Qed.

Lemma size_seen_url (u : string) (X seen : gset string) :
  u ∈ seen → ({[u]} ∪ X) ∖ seen = X ∖ seen.
Proof. set_solver. Qed.

(** The loop appends the first candidates with a fresh url, in order,
    until the list holds five entries. *)
Lemma shortlist_loop_spec (recs : list candidate) (seen : gset string)
    (acc : list Recommendation) :
  (length acc ≤ 5)%nat →
  ∃ kept,
    shortlist_loop recs seen acc = acc ++ (to_recommendation <$> kept) ∧
    kept `sublist_of` recs ∧
    NoDup (cand_url <$> kept) ∧
    (∀ k, k ∈ kept → cand_url k ∉ seen) ∧
    (length acc + length kept)%nat =
      (5 `min` (length acc + size (urls_of recs ∖ seen)))%nat.
Proof.
  revert seen acc. induction recs as [|r rest IH]; intros seen acc Hlen.
  - exists []. cbn [shortlist_loop fmap list_fmap length].
    rewrite app_nil_r. split_and!.
    + done.
    + constructor.
    + constructor.
    + by intros k ?%elem_of_nil.
    + unfold urls_of. cbn [fmap list_fmap list_to_set].
      assert ((∅ : gset string) ∖ seen = ∅) as -> by set_solver.
      rewrite size_empty. lia.
  - cbn [shortlist_loop]. rewrite urls_of_cons. case_decide as Htake.
    + destruct Htake as [Hfresh Hlt].
      destruct (IH ({[cand_url r]} ∪ seen) (acc ++ [to_recommendation r]))
        as (kept & Heq & Hsub & Hnd & Hns & Hl).
      { rewrite length_app. cbn [length]. lia. }
      exists (r :: kept). split_and!.
      * rewrite Heq, fmap_cons. by rewrite <- app_assoc.
      * by apply sublist_skip.
      * rewrite fmap_cons. constructor; [|done].
        intros (k & Hk & Hin)%list_elem_of_fmap.
        apply Hns in Hin. set_solver.
      * intros k [->|Hk]%elem_of_cons; [done|].
        apply Hns in Hk. set_solver.
      * rewrite size_fresh_url by done.
        rewrite length_app in Hl. cbn [length] in *. lia.
    + destruct (IH seen acc Hlen) as (kept & Heq & Hsub & Hnd & Hns & Hl).
      exists kept. split_and!; [done|by apply sublist_cons|done|done|].
      destruct (decide (cand_url r ∈ seen)) as [Hin|Hfresh].
      * by rewrite size_seen_url.
      * assert (length acc = 5)%nat as Hfull.
        { destruct (decide (length acc < 5)%nat); [|lia]. by destruct Htake. }
        lia.
Qed.

(** The shortlist built from a non-empty deduplicated pool. *)
Lemma top_and_shortlist_spec (top : candidate) (rest : list candidate) :
  ∃ kept,
    top_and_shortlist (top :: rest) =
      Returns (top, to_recommendation <$> (top :: kept)) ∧
    (top :: kept) `sublist_of` (top :: rest) ∧
    NoDup (cand_url <$> (top :: kept)) ∧
    length (top :: kept) = (5 `min` size (urls_of (top :: rest)))%nat.
Proof.
  destruct (shortlist_loop_spec rest {[cand_url top]} [to_recommendation top])
    as (kept & Heq & Hsub & Hnd & Hns & Hl); [simpl; lia|].
  exists kept. split_and!.
  - simpl. by rewrite Heq.
  - by apply sublist_skip.
  - rewrite fmap_cons. constructor; [|done].
    intros (k & Hk & Hin)%list_elem_of_fmap.
    apply Hns in Hin. set_solver.
  - rewrite urls_of_cons, size_union_alt, size_singleton.
    cbn [length] in *. lia.
Qed.

Lemma rec_url_to_recommendation (l : list candidate) :
  rec_url <$> (to_recommendation <$> l) = cand_url <$> l.
Proof. rewrite <- list_fmap_compose. done. Qed.

Lemma rec_product_to_recommendation (l : list candidate) :
  rec_product <$> (to_recommendation <$> l) = cand_product <$> l.
Proof. rewrite <- list_fmap_compose. done. Qed.

(** ** The candidate collector *)

Lemma collect_loop_returns (find : ads_db) (vectors : list interest) :
  Forall (answers find) vectors →
  ∀ idx queried acc,
    collect_loop find idx vectors queried acc =
      (queried ++ (query_vector <$> vectors),
       Returns (acc ++ merged_pool find idx vectors)).
Proof.
  induction 1 as [|[[uv n] d] rest [top_ads Hfind] _ IH]; intros idx queried acc.
  - simpl. by rewrite !app_nil_r.
  - cbn [collect_loop merged_pool fmap list_fmap]. unfold contribution.
    unfold query_vector in *. cbn [fst] in *. rewrite Hfind.
    destruct top_ads as [|a top_ads]; rewrite IH, <- !app_assoc; done.
Qed.


Lemma collect_loop_inv (find : ads_db) (vectors : list interest) :
  ∀ idx queried acc queried' pool,
    collect_loop find idx vectors queried acc = (queried', Returns pool) →
    Forall (answers find) vectors.
Proof.
  induction vectors as [|[[uv n] d] rest IH]; intros idx queried acc queried' pool.
  - constructor.
  - cbn [collect_loop]. destruct (find uv) as [top_ads|e] eqn:Hfind; [|done].
    intros Hloop. constructor; [by exists top_ads|].
    destruct top_ads; eapply IH; exact Hloop.
Qed.

Lemma vector_loop_idx (idx : Z) (top_ads : list ad) :
  ∀ seen acc,
    Forall (λ c, cand_vector_idx c = idx) acc →
    Forall (λ c, cand_vector_idx c = idx) (vector_loop idx top_ads seen acc).
Proof.
  induction top_ads as [|a rest IH]; intros seen acc Hacc; cbn [vector_loop].
  - done.
  - cbv zeta. repeat case_decide; try by apply IH.
    apply IH. apply Forall_app. split; [done|]. by repeat constructor.
Qed.

Lemma contribution_idx (find : ads_db) (idx : Z) (v : interest) :
  Forall (λ c, cand_vector_idx c = idx) (contribution find idx v).
Proof.
  unfold contribution. destruct (find _); [|constructor].
  apply vector_loop_idx. constructor.
Qed.

Lemma merged_pool_idx_ge (find : ads_db) (vectors : list interest) :
  ∀ idx, Forall (λ c, idx ≤ cand_vector_idx c) (merged_pool find idx vectors).
Proof.
  induction vectors as [|v rest IH]; intros idx; cbn [merged_pool].
  - constructor.
  - apply Forall_app. split.
    + eapply Forall_impl; [apply contribution_idx|]. intros c Hc. simpl in Hc. lia.
    + eapply Forall_impl; [apply (IH (idx + 1))|]. intros c Hc. simpl in Hc. lia.
Qed.

(** The pool is in collection order: vector indices never decrease. *)
Lemma merged_pool_idx_sorted (find : ads_db) (vectors : list interest) :
  ∀ idx, StronglySorted idx_le (merged_pool find idx vectors).
Proof.
  induction vectors as [|v rest IH]; intros idx; cbn [merged_pool].
  - constructor.
  - apply StronglySorted_app_2; [| |apply IH].
    + intros c1 c2 H1 H2. unfold idx_le.
      pose proof (contribution_idx find idx v) as Hc.
      pose proof (merged_pool_idx_ge find rest (idx + 1)) as Hm.
      rewrite Forall_forall in Hc, Hm.
      specialize (Hc _ H1). specialize (Hm _ H2). simpl in *. lia.
    + pose proof (contribution_idx find idx v) as Hc.
      induction Hc as [|c l Hc Hl IHl]; constructor; [done|].
      eapply Forall_impl; [exact Hl|]. intros c' Hc'. unfold idx_le.
      simpl in *. lia.
Qed.

Lemma dedup_sorted_nonempty (ltb : candidate → candidate → bool)
    (pool : list candidate) :
  pool ≠ [] →
  ∃ top rest, dedup_loop (sort_desc ltb pool) ∅ [] = top :: rest.
Proof.
  intros Hne. destruct (sort_desc ltb pool) as [|top sorted] eqn:Hs.
  - by apply sort_desc_nil_inv in Hs.
  - rewrite dedup_loop_head. eauto.
Qed.

(** C5. When every similarity query answers, a query with zero results
    for one vector does not stop the loop: all vectors are queried, in
    list order, and the "no advertisements found" failure (HTTP 404 in
    v7.0, the [ValueError] of [agent_2_node] in v7.1) is raised exactly
    when the merged pool is empty. *)
Theorem C5_zero_results_do_not_abort (find : ads_db) (vectors : list interest) :
  Forall (answers find) vectors →
  let pool := merged_pool find 0 vectors in
  ((V70.perform_selection_approach find vectors).1 = query_vector <$> vectors ∧
   ((V70.perform_selection_approach find vectors).2 = Raises (HTTPException 404)
    ↔ pool = []) ∧
   (pool ≠ [] → (V70.perform_selection_approach find vectors).2 = Returns pool)) ∧
  (∀ st, V71.user_vectors_with_interests st = vectors →
     (V71.agent_2_node find st).1 = query_vector <$> vectors ∧
     ((V71.agent_2_node find st).2 =
        Raises (ValueError
          "No advertisements found across all vectors (Selection Approach)")
      ↔ pool = []) ∧
     (pool ≠ [] → ∃ st', (V71.agent_2_node find st).2 = Returns st')).
Proof.
  intros Hanswers pool. split.
  - unfold V70.perform_selection_approach.
    rewrite collect_loop_returns by done. cbn [app]. fold pool.
    destruct pool as [|c pool']; cbn [fst snd]; split_and!; try done.
  - intros st <-. unfold V71.agent_2_node.
    rewrite collect_loop_returns by done. cbn [app]. fold pool.
    destruct pool as [|c pool'] eqn:Hpool; cbn [fst snd].
    + split_and!; done.
    + destruct (dedup_sorted_nonempty score_idx_ltb (c :: pool'))
        as (top & rest & Hd); [done|].
      unfold V71.deduplicated_recommendations. rewrite Hd.
      cbn [top_and_shortlist fst snd]. split_and!; [done| |eauto].
      split; done.
Qed.

Lemma C5_zero_results_do_not_abort_witness :
  Forall (answers find_nothing_for_second) three_vectors ∧
  (V70.perform_selection_approach find_nothing_for_second three_vectors).1 =
    [[1%Q]; [2%Q]; [3%Q]] ∧
  (V70.perform_selection_approach find_nothing_for_second three_vectors).2 =
    Returns
      [{| cand_url := "https://ads.example/shoes&autoplay=1&mute=1";
          cand_product := "Shoes"; cand_score := 0.9; cand_vector_idx := 0 |};
       {| cand_url := "https://ads.example/tent&autoplay=1&mute=1";
          cand_product := "Tent"; cand_score := 0.8; cand_vector_idx := 2 |}].
Proof.
  assert (Forall (answers find_nothing_for_second) three_vectors) as Hanswers.
  { repeat constructor; eexists; reflexivity. }
  split; [exact Hanswers|].
  destruct (C5_zero_results_do_not_abort _ _ Hanswers) as [(Hq & _ & Hpool) _].
  split; [exact Hq|]. apply Hpool. vm_compute. discriminate.
Defined.

(** ** A similarity query that raises *)




(** ** The rank-and-dedup selector *)

Lemma V70_dedup_keeps_best (pool : list candidate) :
  keeps_best_per_product pool (V70.deduplicated_recommendations pool) ∧
  sorted_by_score_desc (V70.deduplicated_recommendations pool).
Proof.
  apply dedup_of_sorted_keeps_best;
    [apply sort_desc_perm|apply sort_score_idx_sorted].
Qed.

Lemma collect_loop_pool (find : ads_db) (vectors : list interest)
    (queried : list (list Q)) (pool : list candidate) :
  collect_loop find 0 vectors [] [] = (queried, Returns pool) →
  Forall (answers find) vectors ∧
  queried = query_vector <$> vectors ∧ pool = merged_pool find 0 vectors.
Proof.
  intros Hloop. pose proof (collect_loop_inv _ _ _ _ _ _ _ Hloop) as Hanswers.
  rewrite collect_loop_returns in Hloop by done. by simplify_eq.
Qed.

Lemma sorted_by_score_no_lt (l : list candidate) :
  sorted_by_score_desc l → StronglySorted (λ x y, score_ltb x y = false) l.
Proof.
  induction 1 as [|x l Hl IH Hx]; constructor; [done|].
  eapply Forall_impl; [exact Hx|]. intros y Hxy. by apply score_ltb_false.
Qed.

(** In v6.4 the second sort finds the deduplicated list already in
    order. *)
Lemma V64_dedup_unfold (pool : list candidate) :
  StronglySorted idx_le pool →
  V64.deduplicated_recommendations pool =
    dedup_loop (sort_desc score_ltb pool) ∅ [] ∧
  keeps_best_per_product pool (V64.deduplicated_recommendations pool) ∧
  sorted_by_score_desc (V64.deduplicated_recommendations pool).
Proof.
  intros Hidx.
  destruct (dedup_of_sorted_keeps_best pool (sort_desc score_ltb pool))
    as [Hbest Hsorted]; [apply sort_desc_perm|by apply sort_score_sorted|].
  assert (V64.deduplicated_recommendations pool =
            dedup_loop (sort_desc score_ltb pool) ∅ []) as ->; [|done].
  unfold V64.deduplicated_recommendations.
  by apply sort_desc_id, sorted_by_score_no_lt.
Qed.

(** C6. For a non-empty pool the selector keeps, for each product, one
    candidate with the highest score of that product and, among equal
    scores, the lowest vector index; the deduplicated list is in
    descending order of score and its head is the top match. This holds
    in v7.0 for any pool, and in v7.1 and v6.4 for the pool the
    collection loop hands over. *)
Theorem C6_selector_keeps_best :
  (∀ pool, pool ≠ [] →
     keeps_best_per_product pool (V70.deduplicated_recommendations pool) ∧
     sorted_by_score_desc (V70.deduplicated_recommendations pool) ∧
     ∃ top rest shortlist,
       V70.deduplicated_recommendations pool = top :: rest ∧
       V70.select_top_recommendation pool =
         Returns {| Api.top_ad := to_recommendation top;
                    Api.top_recommendations := shortlist |}) ∧
  (∀ find st queried pool,
     collect_loop find 0 (V71.user_vectors_with_interests st) [] [] =
       (queried, Returns pool) →
     pool ≠ [] →
     keeps_best_per_product pool (V71.deduplicated_recommendations pool) ∧
     sorted_by_score_desc (V71.deduplicated_recommendations pool) ∧
     ∃ top rest st',
       V71.deduplicated_recommendations pool = top :: rest ∧
       V71.agent_2_node find st = (queried, Returns st') ∧
       V71.ad_url st' = cand_url top ∧
       V71.product st' = cand_product top ∧
       V71.similarity_score st' = cand_score top) ∧
  (∀ find vectors queried pool,
     collect_loop find 0 vectors [] [] = (queried, Returns pool) →
     pool ≠ [] →
     keeps_best_per_product pool (V64.deduplicated_recommendations pool) ∧
     sorted_by_score_desc (V64.deduplicated_recommendations pool) ∧
     ∃ top rest shortlist,
       V64.deduplicated_recommendations pool = top :: rest ∧
       V64.selection_approach pool = Returns (Some (top, shortlist))).
Proof.
  split_and!.
  - intros pool Hne. destruct (V70_dedup_keeps_best pool) as [Hbest Hsorted].
    split_and!; [done..|].
    destruct (dedup_sorted_nonempty score_idx_ltb pool Hne) as (top & rest & Hd).
    exists top, rest. eexists. split; [exact Hd|].
    unfold V70.select_top_recommendation, V70.deduplicated_recommendations.
    rewrite Hd. reflexivity.
  - intros find st queried pool Hloop Hne.
    destruct (V70_dedup_keeps_best pool) as [Hbest Hsorted].
    split_and!; [done..|].
    destruct (dedup_sorted_nonempty score_idx_ltb pool Hne) as (top & rest & Hd).
    exists top, rest. eexists. split; [exact Hd|].
    unfold V71.agent_2_node, V71.deduplicated_recommendations.
    rewrite Hloop, Hd. destruct pool; [done|]. cbn [top_and_shortlist].
    split_and!; reflexivity.
  - intros find vectors queried pool Hloop Hne.
    apply collect_loop_pool in Hloop as (_ & _ & ->).
    destruct (V64_dedup_unfold (merged_pool find 0 vectors))
      as (Hd & Hbest & Hsorted); [apply merged_pool_idx_sorted|].
    split_and!; [done..|].
    destruct (dedup_sorted_nonempty score_ltb _ Hne) as (top & rest & Hd').
    exists top, rest. eexists. split; [by rewrite Hd|].
    unfold V64.selection_approach. rewrite Hd, Hd'.
    destruct (merged_pool find 0 vectors); [done|]. reflexivity.
Qed.

Lemma C6_selector_keeps_best_witness :
  pool_same_product ≠ [] ∧
  keeps_best_per_product pool_same_product
    [{| cand_url := "https://ads.example/shoes&autoplay=1&mute=1";
        cand_product := "Shoes"; cand_score := 0.85; cand_vector_idx := 0 |};
     {| cand_url := "https://ads.example/tent-a&autoplay=1&mute=1";
        cand_product := "Tent"; cand_score := 0.8; cand_vector_idx := 0 |}].
Proof.
  assert (pool_same_product ≠ []) as Hne by discriminate.
  split; [exact Hne|].
  exact (proj1 (proj1 C6_selector_keeps_best pool_same_product Hne)).
Defined.

(** ** The selector's output *)

(** What [top_and_shortlist] returns on a deduplicated list. *)
Lemma shortlist_facts (dedup : list candidate) (top : candidate)
    (shortlist : list Recommendation) :
  NoDup (cand_product <$> dedup) →
  top_and_shortlist dedup = Returns (top, shortlist) →
  head dedup = Some top ∧
  (∃ tail, shortlist = to_recommendation top :: tail) ∧
  NoDup (rec_product <$> shortlist) ∧
  NoDup (rec_url <$> shortlist) ∧
  length shortlist = (5 `min` size (urls_of dedup))%nat.
Proof.
  intros Hnd. destruct dedup as [|top' rest]; [done|].
  destruct (top_and_shortlist_spec top' rest) as (kept & -> & Hsub & Hurl & Hlen).
  intros Heq.
  assert (top = top' ∧ shortlist = to_recommendation <$> (top' :: kept))
    as [-> ->] by (by inversion Heq).
  split_and!.
  - done.
  - eexists. reflexivity.
  - rewrite rec_product_to_recommendation.
    eapply sublist_NoDup; [exact Hnd|]. by apply fmap_sublist.
  - by rewrite rec_url_to_recommendation.
  - by rewrite length_fmap.
Qed.

Lemma V71_agent_2_node_inv (find : ads_db) (st st' : V71.WorkflowState)
    (queried : list (list Q)) :
  V71.agent_2_node find st = (queried, Returns st') →
  ∃ pool top,
    collect_loop find 0 (V71.user_vectors_with_interests st) [] [] =
      (queried, Returns pool) ∧
    pool ≠ [] ∧
    top_and_shortlist (V71.deduplicated_recommendations pool) =
      Returns (top, V71.top_recommendations st') ∧
    V71.ad_url st' = cand_url top ∧
    V71.product st' = cand_product top ∧
    V71.similarity_score st' = cand_score top.
Proof.
  unfold V71.agent_2_node.
  destruct (collect_loop _ _ _ _ _) as [q [pool|e]]; [|done].
  destruct pool as [|c pool]; [done|].
  destruct (top_and_shortlist _) as [[top shortlist]|e] eqn:Hts; [|done].
  intros [= <- <-]. exists (c :: pool), top. by rewrite Hts.
Qed.

(** C7. The selector never emits two recommendations with the same
    product, nor two shortlist entries with the same url: in v7.0 for
    every pool on which [select_top_recommendation] returns, in v7.1 for
    every state [agent_2_node] returns. *)
Theorem C7_no_duplicates :
  (∀ pool sel,
     V70.select_top_recommendation pool = Returns sel →
     NoDup (cand_product <$> V70.deduplicated_recommendations pool) ∧
     NoDup (rec_product <$> Api.top_recommendations sel) ∧
     NoDup (rec_url <$> Api.top_recommendations sel)) ∧
  (∀ find st queried st',
     V71.agent_2_node find st = (queried, Returns st') →
     NoDup (rec_product <$> V71.top_recommendations st') ∧
     NoDup (rec_url <$> V71.top_recommendations st')).
Proof.
  split.
  - intros pool sel. unfold V70.select_top_recommendation.
    destruct (top_and_shortlist _) as [[top shortlist]|e] eqn:Hts; [|done].
    intros [= <-]. cbn [Api.top_recommendations].
    pose proof (dedup_loop_NoDup (sort_desc score_idx_ltb pool) ∅) as Hnd.
    destruct (shortlist_facts _ _ _ Hnd Hts) as (_ & _ & Hp & Hu & _).
    done.
  - intros find st queried st' Hret.
    apply V71_agent_2_node_inv in Hret as (pool & top & _ & _ & Hts & _).
    pose proof (dedup_loop_NoDup (sort_desc score_idx_ltb pool) ∅) as Hnd.
    destruct (shortlist_facts _ _ _ Hnd Hts) as (_ & _ & Hp & Hu & _).
    done.
Qed.

Lemma C7_no_duplicates_witness :
  ∃ sel,
    V70.select_top_recommendation pool_seven = Returns sel ∧
    rec_product <$> Api.top_recommendations sel = ["A"; "B"; "C"; "D"; "E"] ∧
    NoDup (rec_url <$> Api.top_recommendations sel).
Proof.
  eexists. split; [reflexivity|]. split; [reflexivity|].
  exact (proj2 (proj2 (proj1 C7_no_duplicates pool_seven _ eq_refl))).
Defined.



(** The head of a list in descending order has the maximum score. *)
Lemma head_has_max_score (dedup : list candidate) (top : candidate) :
  sorted_by_score_desc dedup → head dedup = Some top →
  top ∈ dedup ∧ ∀ c, c ∈ dedup → (cand_score c <= cand_score top)%Q.
Proof.
  intros Hsorted Hhead. destruct dedup as [|top' rest]; [done|].
  injection Hhead as ->. split; [by left|].
  apply StronglySorted_inv in Hsorted as [_ Hrest].
  intros c [->|Hc]%elem_of_cons; [apply Qle_refl|].
  rewrite Forall_forall in Hrest. by apply Hrest.
Qed.



(** The two pools above, evaluated: two entries for two urls, five
    entries for five urls among six products. *)
Example shortlist_same_product :
  V70.select_top_recommendation pool_same_product =
    Returns
      {| Api.top_ad :=
           {| rec_url := "https://ads.example/shoes&autoplay=1&mute=1";
              rec_product := "Shoes"; rec_score := 0.85 |};
         Api.top_recommendations :=
           [{| rec_url := "https://ads.example/shoes&autoplay=1&mute=1";
               rec_product := "Shoes"; rec_score := 0.85 |};
            {| rec_url := "https://ads.example/tent-a&autoplay=1&mute=1";
               rec_product := "Tent"; rec_score := 0.8 |}] |}.
Proof. reflexivity. Qed.

Example shortlist_seven :
  (λ sel, rec_url <$> Api.top_recommendations sel) <$>
    (match V70.select_top_recommendation pool_seven with
     | Returns sel => Some sel
     | Raises _ => None
     end) = Some ["u3"; "u1"; "u2"; "u4"; "u5"] ∧
  size (urls_of (V70.deduplicated_recommendations pool_seven)) = 5%nat.
Proof. split; reflexivity. Qed.

(** ** Low-confidence matches *)

Lemma V71_agent_1_node_inv (users : interests_db) (st s1 : V71.WorkflowState) :
  V71.agent_1_node users st = Returns s1 →
  V71.customer_id s1 = V71.customer_id st ∧ V71.customer_id st ≠ "" ∧
  V71.user_vectors_with_interests s1 ≠ [].
Proof.
  unfold V71.agent_1_node. case_decide as Hid; [done|].
  destruct (users _) as [[|e entries]|]; [done| |done].
  destruct (vectors_with_interests_of _) as [|v vs]; [done|].
  by intros [= <-].
Qed.

(** C2 fails on the v7.1 service: with a best score of 0.5 the workflow
    ends in the fallback state, and the endpoint answers HTTP 404. *)
Lemma C2_counterexample :
  (∃ st, V71.graph_invoke one_customer find_low_score (V71.initial_state "c1") =
           ([[1%Q]], Returns st) ∧
         V71.play_ad st = false ∧
         V71.ad_url st = DEFAULT_AD_URL ∧
         V71.product st = DEFAULT_PRODUCT ∧
         V71.top_recommendations st = []) ∧
  V71.get_recommendations one_customer find_low_score "c1" =
    ([[1%Q]], HTTP_error 404).
Proof. split; [eexists; split_and!; reflexivity|reflexivity]. Qed.

(** C2, amended. Whenever the score that [agent_2_node] selected is below
    0.7, the v7.1 and the v6.4 workflow complete with [play_ad = false]
    and the default-ad url and "Generic Product"; the v7.1 endpoint then
    answers the request with HTTP 404, as [agent_3_node] has emptied the
    shortlist. *)
Theorem C2_low_score_completes_then_404 :
  (∀ users find uid s1 queried s2,
     V71.agent_1_node users (V71.initial_state uid) = Returns s1 →
     V71.agent_2_node find s1 = (queried, Returns s2) →
     (V71.similarity_score s2 < SIMILARITY_THRESHOLD)%Q →
     ∃ st,
       V71.graph_invoke users find (V71.initial_state uid) = (queried, Returns st) ∧
       V71.play_ad st = false ∧
       V71.ad_url st = DEFAULT_AD_URL ∧
       V71.product st = DEFAULT_PRODUCT ∧
       V71.get_recommendations users find uid = (queried, HTTP_error 404)) ∧
  (∀ env all_ads find,
     let s1 := V64.agent_1_node env V64.initial_state in
     let s2 := (V64.agent_2_node all_ads find s1).2 in
     V64.customer_id s1 ≠ "" →
     (V64.similarity_score s2 < SIMILARITY_THRESHOLD)%Q →
     let st := (V64.graph_invoke env all_ads find V64.initial_state).2 in
     st = V64.agent_3_node s2 ∧
     V64.play_ad st = false ∧
     V64.ad_url st = DEFAULT_AD_URL ∧
     V64.product st = DEFAULT_PRODUCT).
Proof.
  split.
  - intros users find uid s1 queried s2 H1 H2 Hlow.
    destruct (V71_agent_1_node_inv _ _ _ H1) as (Hid & Hne & _).
    apply Qle_bool_false in Hlow.
    exists (V71.agent_3_node s2).
    assert (V71.graph_invoke users find (V71.initial_state uid) =
              (queried, Returns (V71.agent_3_node s2))) as Hrun.
    { unfold V71.graph_invoke. rewrite H1.
      rewrite decide_False by congruence. by rewrite H2. }
    unfold V71.get_recommendations, V71.get_recommendations_body.
    rewrite Hrun. unfold V71.agent_3_node. rewrite Hlow.
    cbn [V71.play_ad V71.ad_url V71.product V71.top_recommendations
         V71.customer_id].
    rewrite decide_True by (by right). done.
  - intros env all_ads find s1 s2 Hid Hlow st.
    assert (st = V64.agent_3_node s2) as ->.
    { unfold st, V64.graph_invoke. fold s1. rewrite decide_False by done.
      unfold s2. by destruct (V64.agent_2_node all_ads find s1). }
    apply Qle_bool_false in Hlow.
    unfold V64.agent_3_node. rewrite Hlow. done.
Qed.

Lemma C2_low_score_completes_then_404_witness :
  ∃ st,
    V71.graph_invoke one_customer find_low_score (V71.initial_state "c1") =
      ([[1%Q]], Returns st) ∧
    V71.play_ad st = false ∧
    V71.ad_url st = DEFAULT_AD_URL ∧
    V71.product st = DEFAULT_PRODUCT ∧
    V71.get_recommendations one_customer find_low_score "c1" =
      ([[1%Q]], HTTP_error 404).
Proof.
  eapply (proj1 C2_low_score_completes_then_404); [reflexivity|reflexivity|].
  reflexivity.
Defined.

(** ** The result invariant *)



Lemma low_score_run :
  V71.graph_invoke one_customer find_low_score (V71.initial_state "c1") =
    ([[1%Q]], Returns low_score_result).
Proof. reflexivity. Qed.


(** ** The vector aggregator *)


Lemma length_zip_with_Qplus (a b : list Q) :
  length a = length b → length (zip_with Qplus a b) = length a.
Proof.
  revert b. induction a as [|x a IH]; intros [|y b] Hlen; try done.
  simpl. f_equal. apply IH. by injection Hlen.
Qed.

Lemma foldl_zip_with_length (n : nat) (rest : list (list Q)) :
  Forall (λ v, length v = n) rest →
  ∀ acc, length acc = n → length (foldl (zip_with Qplus) acc rest) = n.
Proof.
  induction 1 as [|v rest Hv _ IH]; intros acc Hacc; [done|].
  simpl. apply IH. rewrite length_zip_with_Qplus; congruence.
Qed.






(** ** The status codes of [GET /recommend/{user_id}] *)

(** C10. The four failure conditions of a request and the status each
    service answers. v7.0 answers 404 when the customer has no interest
    records, 400 when no record carries a vector, 404 when no vector
    finds an advertisement and 500 when the store fails unexpectedly.
    v7.1 answers 500 in all four cases: its nodes raise [ValueError],
    which the endpoint turns into a 500. *)
Theorem C10_status_codes (users : interests_db) (find : ads_db) (uid : string) :
  (users uid = Returns [] →
     V70.get_recommendations users find uid = ([], HTTP_error 404) ∧
     V71.get_recommendations users find uid = ([], HTTP_error 500)) ∧
  (∀ entries,
     users uid = Returns entries → entries ≠ [] →
     vectors_with_interests_of entries = [] →
     V70.get_recommendations users find uid = ([], HTTP_error 400) ∧
     V71.get_recommendations users find uid = ([], HTTP_error 500)) ∧
  (∀ entries,
     users uid = Returns entries →
     vectors_with_interests_of entries ≠ [] →
     Forall (answers find) (vectors_with_interests_of entries) →
     merged_pool find 0 (vectors_with_interests_of entries) = [] →
     (V70.get_recommendations users find uid).2 = HTTP_error 404 ∧
     (V71.get_recommendations users find uid).2 = HTTP_error 500) ∧
  (∀ e,
     users uid = Raises e → (∀ status_code, e ≠ HTTPException status_code) →
     V70.get_recommendations users find uid = ([], HTTP_error 500) ∧
     V71.get_recommendations users find uid = ([], HTTP_error 500)).
Proof.
  unfold V70.get_recommendations, V70.get_recommendations_body,
    V70.get_user_data, V70.perform_selection_approach,
    V71.get_recommendations, V71.get_recommendations_body,
    V71.graph_invoke, V71.agent_1_node, V71.agent_2_node.
  cbn [V71.initial_state V71.customer_id V71.user_vectors_with_interests].
  split_and!.
  - intros ->. split; [done|]. by case_decide.
  - intros [|e0 entries] -> Hne Hvec; [done|]. rewrite Hvec.
    split; [done|]. by case_decide.
  - intros [|e0 entries] -> Hvec Hanswers Hpool; [done|].
    destruct (vectors_with_interests_of (e0 :: entries)) as [|v vs] eqn:Hv;
      [done|].
    rewrite collect_loop_returns by done. rewrite Hpool. cbn [app].
    split; [done|]. case_decide as Hid; [done|].
    cbn [V71.customer_id V71.user_vectors_with_interests].
    rewrite decide_False by done.
    rewrite collect_loop_returns by done. by rewrite Hpool.
  - intros e -> He. split.
    + destruct e; try done. by destruct (He status_code).
    + case_decide; [done|]. destruct e; try done. by destruct (He status_code).
Qed.

Lemma C10_status_codes_witness :
  (V70.get_recommendations no_records find_nothing "unknown" =
     ([], HTTP_error 404) ∧
   V71.get_recommendations no_records find_nothing "unknown" =
     ([], HTTP_error 500)) ∧
  (V70.get_recommendations record_without_vector find_nothing "c1" =
     ([], HTTP_error 400) ∧
   V71.get_recommendations record_without_vector find_nothing "c1" =
     ([], HTTP_error 500)) ∧
  ((V70.get_recommendations one_customer find_nothing "c1").2 = HTTP_error 404 ∧
   (V71.get_recommendations one_customer find_nothing "c1").2 = HTTP_error 500).
Proof.
  split; [|split].
  - apply (proj1 (C10_status_codes no_records find_nothing "unknown")).
    reflexivity.
  - eapply (proj1 (proj2 (C10_status_codes record_without_vector
                            find_nothing "c1")));
      [reflexivity|discriminate|reflexivity].
  - eapply (proj1 (proj2 (proj2 (C10_status_codes one_customer
                                   find_nothing "c1"))));
      [reflexivity|discriminate| |reflexivity].
    repeat constructor. eexists. reflexivity.
Defined.

(** ** End-to-end scenarios *)

Example scenario_three_matches :
  (∃ st, V71.graph_invoke one_customer find_three (V71.initial_state "c1") =
           ([[1%Q]], Returns st) ∧
         V71.play_ad st = true ∧
         V71.similarity_score st = 0.9%Q ∧
         V71.top_recommendations st = three_recommendations) ∧
  (∃ body, V71.get_recommendations one_customer find_three "c1" =
             ([[1%Q]], HTTP_200 body) ∧
           Api.top_recommendations (Api.selection_approach body) =
             three_recommendations) ∧
  (∃ body, V70.get_recommendations one_customer find_three "c1" =
             ([[1%Q]], HTTP_200 body) ∧
           Api.top_ad (Api.selection_approach body) =
             {| rec_url := "https://ads.example/shoes&autoplay=1&mute=1";
                rec_product := "Shoes"; rec_score := 0.9 |}).
Proof.
  split; [|split]; eexists; split_and!; reflexivity.
Qed.

(** An unknown customer: v7.0 answers 404 and no similarity query is
    issued. *)
Example scenario_unknown_customer :
  V70.get_recommendations one_customer find_three "nobody" =
    ([], HTTP_error 404).
Proof. reflexivity. Qed.

(** v7.0 has no threshold validator: a best score of 0.5 is answered
    with the match itself. *)
Example scenario_low_score_v70 :
  ∃ body, V70.get_recommendations one_customer find_low_score "c1" =
            ([[1%Q]], HTTP_200 body) ∧
          Api.top_ad (Api.selection_approach body) =
            {| rec_url := "https://ads.example/shoes&autoplay=1&mute=1";
               rec_product := "Shoes"; rec_score := 0.5 |}.
Proof. eexists. split; reflexivity. Qed.

(** * Further properties *)

(** ** The inner loop over the answers of one query *)

Lemma vector_loop_acc (idx : Z) (top_ads : list ad) :
  ∀ seen acc,
    vector_loop idx top_ads seen acc = acc ++ vector_loop idx top_ads seen [].
Proof.
  induction top_ads as [|a rest IH]; intros seen acc; cbn [vector_loop].
  - by rewrite app_nil_r.
  - cbv zeta. repeat case_decide; try apply IH.
    cbn [app]. rewrite IH, (IH _ [_]). by rewrite <- app_assoc.
Qed.

Lemma playback_url_nonempty (link : string) :
  link ≠ "" → playback_url link = link +:+ "&autoplay=1&mute=1" ∧
              playback_url link ≠ "".
Proof.
  intros Hne. unfold playback_url. rewrite decide_False by done.
  split; [done|]. by destruct link.
Qed.

Lemma playback_url_empty (link : string) :
  playback_url link = "" ↔ link = "".
Proof.
  split; [|by intros ->].
  intros Hurl. destruct (decide (link = "")) as [|Hne]; [done|].
  by destruct (playback_url_nonempty link Hne) as [_ ?].
Qed.

(** The loop keeps, in the order of the answer, the first advertisement
    of each product among those that have a link. *)
Lemma vector_loop_spec (idx : Z) (top_ads : list ad) :
  ∀ seen,
    ∃ kept,
      vector_loop idx top_ads seen [] = candidate_of idx <$> kept ∧
      kept `sublist_of` top_ads ∧
      NoDup (ad_product <$> kept) ∧
      (∀ a, a ∈ kept → video_link a ≠ "" ∧ ad_product a ∉ seen) ∧
      (∀ a, a ∈ top_ads → video_link a ≠ "" → ad_product a ∉ seen →
            ∃ k, k ∈ kept ∧ ad_product k = ad_product a).
Proof.
  induction top_ads as [|a rest IH]; intros seen.
  - exists []. split_and!; [done|constructor|constructor| |].
    + by intros a ?%elem_of_nil.
    + by intros a ?%elem_of_nil.
  - cbn [vector_loop]. cbv zeta. case_decide as Hseen.
    + destruct (IH seen) as (kept & Heq & Hsub & Hnd & Hk & Hcov).
      exists kept. split_and!; [done|by apply sublist_cons|done|done|].
      intros b [->|Hb]%elem_of_cons Hlink Hfresh; [done|]. by apply Hcov.
    + case_decide as Hurl.
      * apply (proj1 (playback_url_empty _)) in Hurl.
        destruct (IH seen) as (kept & Heq & Hsub & Hnd & Hk & Hcov).
        exists kept. split_and!; [done|by apply sublist_cons|done|done|].
        intros b [->|Hb]%elem_of_cons Hlink Hfresh; [done|]. by apply Hcov.
      * assert (video_link a ≠ "") as Hlink.
        { intros Hl. apply Hurl. by rewrite Hl. }
        destruct (IH ({[ad_product a]} ∪ seen))
          as (kept & Heq & Hsub & Hnd & Hk & Hcov).
        exists (a :: kept). split_and!.
        -- rewrite vector_loop_acc, Heq. done.
        -- by apply sublist_skip.
        -- rewrite fmap_cons. constructor; [|done].
           intros (k & Hp & Hin)%list_elem_of_fmap.
           apply Hk in Hin as [_ Hin]. set_solver.
        -- intros b [->|Hb]%elem_of_cons; [done|].
           apply Hk in Hb as [? ?]. split; [done|set_solver].
        -- intros b [->|Hb]%elem_of_cons Hl Hfresh.
           ++ exists a. split; [by left|done].
           ++ destruct (decide (ad_product b = ad_product a)) as [Heqp|Hnep].
              ** exists a. split; [by left|done].
              ** destruct (Hcov b Hb Hl) as (k & Hkin & Hkp); [set_solver|].
                 exists k. split; [by right|done].
Qed.

(** The facts on one query's candidates that later proofs share. *)
Lemma candidates_of_query_facts (idx : Z) (top_ads : list ad) :
  NoDup (cand_product <$> vector_recommendations_of idx top_ads) ∧
  Forall (λ c, playable (cand_url c)) (vector_recommendations_of idx top_ads).
Proof.
  unfold vector_recommendations_of.
  destruct (vector_loop_spec idx top_ads ∅) as (kept & Heq & _ & Hnd & Hk & _).
  rewrite Heq. split.
  - by rewrite <- list_fmap_compose.
  - apply Forall_fmap, Forall_forall. intros a Ha. cbn.
    destruct (Hk a Ha) as [Hlink _].
    exists (video_link a). split; [done|].
    by destruct (playback_url_nonempty _ Hlink).
Qed.

(** X1. The candidates one query contributes: they are built, in answer
    order, from advertisements that have a link; no product occurs
    twice; every candidate carries the index of its vector and a
    playable url; and every product that has a link in the answer is
    represented. An advertisement without a link is dropped without
    blocking a later one of the same product. *)
Theorem X1_per_query_candidates (idx : Z) (top_ads : list ad) :
  ∃ kept,
    vector_recommendations_of idx top_ads = candidate_of idx <$> kept ∧
    kept `sublist_of` top_ads ∧
    NoDup (cand_product <$> vector_recommendations_of idx top_ads) ∧
    Forall (λ c, cand_vector_idx c = idx ∧ playable (cand_url c))
      (vector_recommendations_of idx top_ads) ∧
    (∀ a, a ∈ top_ads → video_link a ≠ "" →
          ∃ c, c ∈ vector_recommendations_of idx top_ads ∧
               cand_product c = ad_product a).
Proof.
  unfold vector_recommendations_of.
  destruct (vector_loop_spec idx top_ads ∅) as (kept & Heq & Hsub & Hnd & Hk & Hcov).
  exists kept. rewrite Heq. split_and!; [done|done| | |].
  - by rewrite <- list_fmap_compose.
  - apply Forall_fmap, Forall_forall. intros a Ha. cbn.
    split; [done|]. destruct (Hk a Ha) as [Hlink _].
    exists (video_link a). split; [done|].
    by destruct (playback_url_nonempty _ Hlink).
  - intros a Ha Hlink. destruct (Hcov a Ha Hlink) as (k & Hkin & Hkp); [set_solver|].
    exists (candidate_of idx k). split; [|done].
    apply list_elem_of_fmap. eauto.
Qed.

Example per_query_candidates_example :
  vector_recommendations_of 2 ads_with_repeats =
    [{| cand_url := "https://ads.example/shoes&autoplay=1&mute=1";
        cand_product := "Shoes"; cand_score := 0.9; cand_vector_idx := 2 |};
     {| cand_url := "https://ads.example/tent&autoplay=1&mute=1";
        cand_product := "Tent"; cand_score := 0.8; cand_vector_idx := 2 |}].
Proof. reflexivity. Qed.

(** ** The two sort keys on a collected pool *)

Lemma insert_desc_keys_agree (x : candidate) (l : list candidate) :
  Forall (idx_le x) l →
  insert_desc score_ltb x l = insert_desc score_idx_ltb x l.
Proof.
  induction 1 as [|y l Hy _ IH]; [done|]. cbn [insert_desc].
  assert (score_ltb x y = score_idx_ltb x y) as ->.
  { unfold score_idx_ltb. destruct (Qeq_bool _ _) eqn:He; [|done].
    apply Qeq_bool_iff in He. unfold idx_le in Hy.
    transitivity false.
    - apply score_ltb_false. rewrite He. apply Qle_refl.
    - symmetry. apply Z.ltb_ge. lia. }
  by rewrite IH.
Qed.

Lemma sort_desc_keys_agree (pool : list candidate) :
  StronglySorted idx_le pool →
  sort_desc score_ltb pool = sort_desc score_idx_ltb pool.
Proof.
  induction 1 as [|x l Hl IH Hx]; [done|]. cbn [sort_desc foldr].
  fold (sort_desc score_ltb l). fold (sort_desc score_idx_ltb l).
  rewrite <- IH. apply insert_desc_keys_agree.
  by rewrite sort_desc_perm.
Qed.

(** X2. On the pool the collection loop hands over, sorting on the score
    alone (v6.4) and sorting on (score, -vector_idx) (v7.0, v7.1) give
    the same list: the loop appends in vector order and the sort is
    stable. So v6.4 deduplicates to the same candidates and selects the
    same top match and shortlist as v7.0. *)
Theorem X2_v64_selects_as_v70 (find : ads_db) (vectors : list interest)
    (queried : list (list Q)) (pool : list candidate) :
  collect_loop find 0 vectors [] [] = (queried, Returns pool) →
  V64.deduplicated_recommendations pool = V70.deduplicated_recommendations pool ∧
  ∀ top shortlist,
    V64.selection_approach pool = Returns (Some (top, shortlist)) →
    V70.select_top_recommendation pool =
      Returns {| Api.top_ad := to_recommendation top;
                 Api.top_recommendations := shortlist |}.
Proof.
  intros Hloop. apply collect_loop_pool in Hloop as (_ & _ & ->).
  pose proof (merged_pool_idx_sorted find vectors 0) as Hidx.
  assert (V64.deduplicated_recommendations (merged_pool find 0 vectors) =
          V70.deduplicated_recommendations (merged_pool find 0 vectors)) as Heq.
  { destruct (V64_dedup_unfold _ Hidx) as [-> _].
    unfold V70.deduplicated_recommendations.
    by rewrite sort_desc_keys_agree. }
  split; [exact Heq|].
  intros top shortlist. unfold V64.selection_approach, V70.select_top_recommendation.
  rewrite Heq. destruct (merged_pool find 0 vectors); [done|].
  destruct (top_and_shortlist _) as [[t sl]|e]; [|done].
  by intros [= -> ->].
Qed.

Lemma X2_v64_selects_as_v70_witness :
  V64.selection_approach (merged_pool find_tie 0 two_vectors) =
    Returns (Some
      ({| cand_url := "https://ads.example/shoes&autoplay=1&mute=1";
          cand_product := "Shoes"; cand_score := 0.85; cand_vector_idx := 1 |},
       [{| rec_url := "https://ads.example/shoes&autoplay=1&mute=1";
           rec_product := "Shoes"; rec_score := 0.85 |};
        {| rec_url := "https://ads.example/tent-a&autoplay=1&mute=1";
           rec_product := "Tent"; rec_score := 0.8 |}])) ∧
  V70.select_top_recommendation (merged_pool find_tie 0 two_vectors) =
    Returns
      {| Api.top_ad :=
           {| rec_url := "https://ads.example/shoes&autoplay=1&mute=1";
              rec_product := "Shoes"; rec_score := 0.85 |};
         Api.top_recommendations :=
           [{| rec_url := "https://ads.example/shoes&autoplay=1&mute=1";
               rec_product := "Shoes"; rec_score := 0.85 |};
            {| rec_url := "https://ads.example/tent-a&autoplay=1&mute=1";
               rec_product := "Tent"; rec_score := 0.8 |}] |}.
Proof.
  split; [reflexivity|].
  exact (proj2 (X2_v64_selects_as_v70 find_tie two_vectors
                  [[1%Q]; [3%Q]] (merged_pool find_tie 0 two_vectors) eq_refl)
           {| cand_url := "https://ads.example/shoes&autoplay=1&mute=1";
              cand_product := "Shoes"; cand_score := 0.85;
              cand_vector_idx := 1 |}
           _ eq_refl).
Defined.

(** ** The ranking of the shortlist *)

Lemma sorted_recommendations_fmap (l : list candidate) :
  sorted_by_score_desc l → sorted_recommendations (to_recommendation <$> l).
Proof.
  induction 1 as [|x l Hl IH Hx]; [constructor|].
  rewrite fmap_cons. constructor; [done|]. by apply Forall_fmap.
Qed.

(** What the shortlist loop returns, in terms of the deduplicated list. *)
Lemma shortlist_ranked (dedup : list candidate) (top : candidate)
    (shortlist : list Recommendation) :
  sorted_by_score_desc dedup →
  top_and_shortlist dedup = Returns (top, shortlist) →
  sorted_recommendations shortlist ∧
  (length shortlist ≤ 5)%nat ∧
  (∀ r, r ∈ shortlist → ∃ c, c ∈ dedup ∧ r = to_recommendation c).
Proof.
  intros Hsorted. destruct dedup as [|top' rest]; [done|].
  destruct (top_and_shortlist_spec top' rest) as (kept & -> & Hsub & _ & Hlen).
  intros Heq.
  assert (shortlist = to_recommendation <$> (top' :: kept)) as ->
    by (by inversion Heq).
  split_and!.
  - apply sorted_recommendations_fmap.
    eapply StronglySorted_sublist; eassumption.
  - rewrite length_fmap, Hlen. lia.
  - intros r (c & -> & Hc)%list_elem_of_fmap. exists c. split; [|done].
    eapply elem_of_sublist; eassumption.
Qed.

(** X3. Whenever [select_top_recommendation] returns, the shortlist is
    in descending order of score, has at most five entries, starts with
    [top_ad], and every entry is the url, product and score of a
    candidate of the pool; the score of [top_ad] is the highest score of
    the whole pool. *)
Theorem X3_shortlist_is_ranked (pool : list candidate)
    (sel : Api.SelectionApproachResponse) :
  V70.select_top_recommendation pool = Returns sel →
  sorted_recommendations (Api.top_recommendations sel) ∧
  (length (Api.top_recommendations sel) ≤ 5)%nat ∧
  head (Api.top_recommendations sel) = Some (Api.top_ad sel) ∧
  (∀ r, r ∈ Api.top_recommendations sel →
        ∃ c, c ∈ pool ∧ r = to_recommendation c) ∧
  (∀ c, c ∈ pool → (cand_score c <= rec_score (Api.top_ad sel))%Q).
Proof.
  unfold V70.select_top_recommendation.
  destruct (top_and_shortlist _) as [[top shortlist]|e] eqn:Hts; [|done].
  intros [= <-]. cbn [Api.top_recommendations Api.top_ad].
  destruct (V70_dedup_keeps_best pool) as [(Hnd & Hin & Hbest) Hsorted].
  destruct (shortlist_ranked _ _ _ Hsorted Hts) as (Hrank & Hlen & Hfrom).
  destruct (shortlist_facts _ _ _ Hnd Hts) as (Hhead & [tail ->] & _).
  destruct (head_has_max_score _ _ Hsorted Hhead) as [_ Hmax].
  split_and!; [done|done|done| |].
  - intros r Hr. destruct (Hfrom r Hr) as (c & Hc & ->).
    exists c. split; [by apply Hin|done].
  - intros c Hc. destruct (Hbest c Hc) as (r & Hr & _ & Hle & _).
    eapply Qle_trans; [exact Hle|]. by apply Hmax.
Qed.

Lemma X3_shortlist_is_ranked_witness :
  ∃ sel,
    V70.select_top_recommendation pool_seven = Returns sel ∧
    sorted_recommendations (Api.top_recommendations sel) ∧
    rec_score (Api.top_ad sel) = 0.95%Q.
Proof.
  eexists. split; [reflexivity|]. split; [|reflexivity].
  exact (proj1 (X3_shortlist_is_ranked pool_seven _ eq_refl)).
Defined.

(** ** The two services side by side *)

Lemma respond_200 (o : outcome Api.RecommendationResponse)
    (body : Api.RecommendationResponse) :
  respond o = HTTP_200 body ↔ o = Returns body.
Proof.
  split; [|by intros ->]. destruct o as [b|[]]; cbn [respond]; congruence.
Qed.

Lemma V70_by_case (users : interests_db) (find : ads_db) (uid : string) :
  V70.get_recommendations users find uid =
    match classify users find uid with
    | StoreFails e => ([], respond (Raises e))
    | NoRecords => ([], HTTP_error 404)
    | NoVector => ([], HTTP_error 400)
    | StepFails queried e => (queried, respond (Raises e))
    | NoAdvertisement queried => (queried, HTTP_error 404)
    | Selected queried entries top shortlist =>
        (queried, HTTP_200 (body_of uid entries top shortlist))
    end.
Proof.
  unfold V70.get_recommendations, V70.get_recommendations_body,
    V70.get_user_data, V70.perform_selection_approach,
    V70.select_top_recommendation, V70.deduplicated_recommendations, classify.
  destruct (users uid) as [[|e0 entries]|ex]; [done| |done].
  destruct (vectors_with_interests_of _) as [|v0 vs]; [done|].
  destruct (collect_loop _ _ _ _ _) as [q [[|c0 pool]|ec]]; [done| |done].
  by destruct (top_and_shortlist _) as [[top shortlist]|et].
Qed.

Lemma V71_by_case (users : interests_db) (find : ads_db) (uid : string) :
  V71.get_recommendations users find uid =
    if decide (uid = "") then ([], HTTP_error 500)
    else
      match classify users find uid with
      | StoreFails e => ([], respond (Raises e))
      | NoRecords => ([], HTTP_error 500)
      | NoVector => ([], HTTP_error 500)
      | StepFails queried e => (queried, respond (Raises e))
      | NoAdvertisement queried => (queried, HTTP_error 500)
      | Selected queried entries top shortlist =>
          if Qle_bool SIMILARITY_THRESHOLD (cand_score top)
          then (queried, HTTP_200 (body_of uid entries top shortlist))
          else (queried, HTTP_error 404)
      end.
Proof.
  unfold V71.get_recommendations, V71.get_recommendations_body,
    V71.graph_invoke, V71.agent_1_node, V71.agent_2_node,
    V71.deduplicated_recommendations, classify.
  cbn [V71.initial_state V71.customer_id].
  case_decide as Huid; [done|].
  destruct (users uid) as [[|e0 entries]|ex]; [done| |done].
  destruct (vectors_with_interests_of _) as [|v0 vs] eqn:Hvs; [done|].
  cbn [V71.customer_id V71.user_vectors_with_interests].
  rewrite decide_False by done.
  destruct (collect_loop _ _ _ _ _) as [q [[|c0 pool]|ec]]; [done| |done].
  destruct (top_and_shortlist _) as [[top shortlist]|et] eqn:Hts; [|done].
  unfold V71.agent_3_node. cbn [V71.similarity_score].
  destruct (Qle_bool _ _).
  - cbn [V71.customer_id V71.top_recommendations]. case_decide as Hempty; [|done].
    destruct Hempty as [?|Hempty]; [done|].
    destruct (dedup_loop _ _ _) as [|t rest]; [done|].
    destruct (top_and_shortlist_spec t rest) as (kept & Hspec & _).
    rewrite Hspec in Hts. injection Hts as <- <-. done.
  - cbn [V71.customer_id V71.top_recommendations].
    by rewrite decide_True by (by right).
Qed.



Lemma collect_loop_raises_inv (find : ads_db) (vectors : list interest) :
  ∀ idx queried acc queried' e,
    collect_loop find idx vectors queried acc = (queried', Raises e) →
    ∃ v, find v = Raises e.
Proof.
  induction vectors as [|[[uv n] d] rest IH]; intros idx queried acc queried' e.
  - done.
  - cbn [collect_loop]. destruct (find uv) as [top_ads|e'] eqn:Hfind.
    + destruct top_ads; apply IH.
    + intros [= _ ->]. eauto.
Qed.

(** A step after the fetch fails only with an error of the index: the
    shortlist loop is never reached with an empty list. *)
Lemma classify_step_fails (users : interests_db) (find : ads_db) (uid : string)
    (queried : list (list Q)) (e : exn) :
  classify users find uid = StepFails queried e → ∃ v, find v = Raises e.
Proof.
  unfold classify.
  destruct (users uid) as [[|e0 entries]|ex]; [done| |done].
  destruct (vectors_with_interests_of _) as [|v0 vs]; [done|].
  destruct (collect_loop _ _ _ _ _) as [q [[|c0 pool]|ec]] eqn:Hloop; [done| |].
  - destruct (dedup_sorted_nonempty score_idx_ltb (c0 :: pool))
      as (top & rest & ->); done.
  - intros [= _ <-]. by eapply collect_loop_raises_inv.
Qed.

Lemma classify_store_fails (users : interests_db) (find : ads_db) (uid : string)
    (e : exn) :
  classify users find uid = StoreFails e → users uid = Raises e.
Proof.
  unfold classify.
  destruct (users uid) as [[|e0 entries]|ex]; [done| |congruence].
  destruct (vectors_with_interests_of _) as [|v0 vs]; [done|].
  destruct (collect_loop _ _ _ _ _) as [q [[|c0 pool]|ec]]; [done| |done].
  by destruct (top_and_shortlist _) as [[top shortlist]|et].
Qed.

(** X5. When the database clients raise no [HTTPException] of their own,
    v7.1 answers 404 exactly on the requests with a non-empty customer id
    that v7.0 answers 200 with a top score below 0.7: its only 404 is the
    low-confidence match. *)
Theorem X5_v71_404_is_low_confidence (users : interests_db) (find : ads_db)
    (uid : string) :
  no_http_exception users find →
  (V71.get_recommendations users find uid).2 = HTTP_error 404 ↔
  uid ≠ "" ∧
  ∃ body,
    (V70.get_recommendations users find uid).2 = HTTP_200 body ∧
    (rec_score (Api.top_ad (Api.selection_approach body)) < SIMILARITY_THRESHOLD)%Q.
Proof.
  intros [Husers Hfind]. rewrite V70_by_case, V71_by_case.
  case_decide as Huid.
  { split; [done|]. by intros [? _]. }
  destruct (classify users find uid)
    as [e| | |q e|q|q entries top shortlist] eqn:Hcase; cbn [snd].
  - apply classify_store_fails in Hcase.
    destruct e; try (split; [done|by intros (_ & ? & ? & _)]).
    by destruct (Husers uid status_code).
  - split; [done|by intros (_ & ? & ? & _)].
  - split; [done|by intros (_ & ? & ? & _)].
  - apply classify_step_fails in Hcase as [v Hv].
    destruct e; try (split; [done|by intros (_ & ? & ? & _)]).
    by destruct (Hfind v status_code).
  - split; [done|by intros (_ & ? & ? & _)].
  - destruct (Qle_bool _ _) eqn:Hscore; cbn [snd].
    + split; [done|]. intros (_ & body & [= <-] & Hlt).
      apply Qle_bool_false in Hlt. cbn in Hlt. congruence.
    + split; [|done]. intros _. split; [done|]. eexists. split; [done|].
      by apply Qle_bool_false.
Qed.

Lemma X5_v71_404_is_low_confidence_witness :
  "c1" ≠ "" ∧
  ∃ body,
    (V70.get_recommendations one_customer find_low_score "c1").2 = HTTP_200 body ∧
    (rec_score (Api.top_ad (Api.selection_approach body)) < SIMILARITY_THRESHOLD)%Q.
Proof.
  apply (proj1 (X5_v71_404_is_low_confidence one_customer find_low_score "c1"
                  ltac:(split; [intros id c; unfold one_customer; by case_decide
                               |done]))).
  reflexivity.
Defined.

(** X6. When the database clients raise no [HTTPException] of their own,
    v7.0 answers with status 200, 400, 404 or 500 and v7.1 with 200, 404
    or 500: v7.1 never answers 400. *)
Theorem X6_status_codes_are_closed (users : interests_db) (find : ads_db)
    (uid : string) :
  no_http_exception users find →
  status_of (V70.get_recommendations users find uid).2 ∈ [200; 400; 404; 500] ∧
  status_of (V71.get_recommendations users find uid).2 ∈ [200; 404; 500].
Proof.
  intros [Husers Hfind]. rewrite V70_by_case, V71_by_case.
  assert (∀ e, (∀ c, e ≠ HTTPException c) →
               respond (Raises e) = HTTP_error 500) as H500.
  { intros e He. destruct e; try done. by destruct (He status_code). }
  destruct (classify users find uid)
    as [e| | |q e|q|q entries top shortlist] eqn:Hcase.
  - apply classify_store_fails in Hcase. rewrite H500.
    + case_decide; cbn; set_solver.
    + intros c ->. by destruct (Husers uid c).
  - case_decide; cbn; set_solver.
  - case_decide; cbn; set_solver.
  - apply classify_step_fails in Hcase as [v Hv]. rewrite H500.
    + case_decide; cbn; set_solver.
    + intros c ->. by destruct (Hfind v c).
  - case_decide; cbn; set_solver.
  - case_decide; [cbn; set_solver|].
    destruct (Qle_bool _ _); cbn; set_solver.
Qed.

Lemma X6_status_codes_are_closed_witness :
  status_of (V70.get_recommendations record_without_vector find_nothing "c1").2
    ∈ [200; 400; 404; 500] ∧
  status_of (V71.get_recommendations record_without_vector find_nothing "c1").2
    ∈ [200; 404; 500].
Proof.
  apply X6_status_codes_are_closed. split; done.
Defined.

(** ** The queries a request issues *)

Lemma collect_loop_log_prefix (find : ads_db) (vectors : list interest) :
  ∀ idx queried acc,
    ∃ asked,
      (collect_loop find idx vectors queried acc).1 = queried ++ asked ∧
      asked `prefix_of` (query_vector <$> vectors).
Proof.
  induction vectors as [|[[uv n] d] rest IH]; intros idx queried acc.
  - exists []. cbn. by rewrite app_nil_r.
  - cbn [collect_loop fmap list_fmap]. unfold query_vector at 2. cbn [fst].
    destruct (find uv) as [top_ads|e].
    + destruct top_ads;
        [destruct (IH (idx + 1) (queried ++ [uv]) acc) as (asked & -> & Hpre)
        |destruct (IH (idx + 1) (queried ++ [uv])
                    (acc ++ vector_recommendations_of idx (a :: top_ads)))
           as (asked & -> & Hpre)];
        exists (uv :: asked); (split; [by rewrite <- app_assoc|]);
        by apply prefix_cons.
    + exists [uv]. split; [done|]. apply prefix_cons, prefix_nil.
Qed.

Lemma vectors_with_interests_usable (entries : list entry) :
  query_vector <$> vectors_with_interests_of entries =
    filter (λ v, v ≠ []) ((λ e, default [] (entry_vector e)) <$> entries).
Proof.
  unfold vectors_with_interests_of.
  induction entries as [|e entries IH]; [done|].
  rewrite fmap_cons, !filter_cons. case_decide; [|done].
  rewrite !fmap_cons. by f_equal.
Qed.

(** The query log of each case of a request. *)
Lemma classify_queried (users : interests_db) (find : ads_db) (uid : string) :
  match classify users find uid with
  | StoreFails _ | NoRecords | NoVector => True
  | StepFails queried _ | NoAdvertisement queried =>
      queried `prefix_of` usable_vectors users uid
  | Selected queried _ _ _ => queried = usable_vectors users uid
  end.
Proof.
  unfold classify, usable_vectors.
  destruct (users uid) as [[|e0 entries]|ex]; [done| |done].
  rewrite <- vectors_with_interests_usable.
  destruct (vectors_with_interests_of _) as [|v0 vs]; [done|].
  destruct (collect_loop_log_prefix find (v0 :: vs) 0 [] []) as (asked & Hq & Hpre).
  destruct (collect_loop _ _ _ _ _) as [q [[|c0 pool]|ec]] eqn:Hloop;
    cbn [fst app] in Hq; subst q; [done| |done].
  apply collect_loop_pool in Hloop as (_ & -> & _).
  by destruct (top_and_shortlist _) as [[top shortlist]|et].
Qed.

(** X7. Every similarity query a request issues, in v7.0 and in v7.1, is
    for a non-empty vector of the customer's own records: the query log
    is a prefix of the non-empty vectors of the records in the order the
    store returned them, so no record is queried twice and records
    without a vector are never queried; a request answered with 200 has
    queried all of them. *)
Theorem X7_queries_are_the_customers_vectors (users : interests_db)
    (find : ads_db) (uid : string) :
  Forall (λ v, v ≠ []) (usable_vectors users uid) ∧
  (V70.get_recommendations users find uid).1 `prefix_of` usable_vectors users uid ∧
  (V71.get_recommendations users find uid).1 `prefix_of` usable_vectors users uid ∧
  (∀ body, (V70.get_recommendations users find uid).2 = HTTP_200 body →
     (V70.get_recommendations users find uid).1 = usable_vectors users uid) ∧
  (∀ body, (V71.get_recommendations users find uid).2 = HTTP_200 body →
     (V71.get_recommendations users find uid).1 = usable_vectors users uid).
Proof.
  split.
  { unfold usable_vectors. destruct (users uid); [|constructor].
    apply Forall_forall. by intros v [? _]%list_elem_of_filter. }
  rewrite V70_by_case, V71_by_case.
  pose proof (classify_queried users find uid) as Hq.
  destruct (classify users find uid) as [e| | |q e|q|q entries top shortlist];
    case_decide; cbn [fst snd]; try destruct (Qle_bool _ _); cbn [fst snd];
    split_and!; try done; try apply prefix_nil;
    try (by destruct e); try (by subst q).
Qed.

Example queries_skip_records_without_vector :
  (V70.get_recommendations customer_three_records find_three "c1").1 =
    [[1%Q]; [3%Q]] ∧
  (V70.get_recommendations customer_three_records find_fails_on_first "c1").1 =
    [[1%Q]].
Proof. split; reflexivity. Qed.

(** ** The v7.1 workflow *)

(** X8. The error-handler branch of the v7.1 graph is dead: every state
    [graph.invoke] returns went through [agent_1_node], [agent_2_node]
    and [agent_3_node], has the non-empty customer id of the request and
    carries at least one interest vector. An empty customer id makes
    [agent_1_node] raise before the conditional edge is evaluated. *)
Theorem X8_v71_error_handler_is_dead (users : interests_db) (find : ads_db)
    (st0 st : V71.WorkflowState) (queried : list (list Q)) :
  V71.graph_invoke users find st0 = (queried, Returns st) →
  V71.customer_id st0 ≠ "" ∧
  V71.customer_id st = V71.customer_id st0 ∧
  V71.user_vectors_with_interests st ≠ [] ∧
  ∃ s1 s2,
    V71.agent_1_node users st0 = Returns s1 ∧
    V71.agent_2_node find s1 = (queried, Returns s2) ∧
    st = V71.agent_3_node s2.
Proof.
  unfold V71.graph_invoke.
  destruct (V71.agent_1_node users st0) as [s1|e] eqn:H1; [|done].
  destruct (V71_agent_1_node_inv _ _ _ H1) as (Hid & Hne & Hvec).
  rewrite decide_False by congruence.
  destruct (V71.agent_2_node find s1) as [q [s2|e]] eqn:H2; [|done].
  intros [= <- <-].
  assert (V71.customer_id s2 = V71.customer_id s1 ∧
          V71.user_vectors_with_interests s2 = V71.user_vectors_with_interests s1)
    as [Hid2 Hvec2].
  { revert H2. unfold V71.agent_2_node.
    destruct (collect_loop _ _ _ _ _) as [q' [[|c pool]|e]]; [done| |done].
    destruct (top_and_shortlist _) as [[top shortlist]|e]; [|done].
    by intros [= _ <-]. }
  split_and!; [done| | |by exists s1, s2].
  - unfold V71.agent_3_node. destruct (Qle_bool _ _); cbn; congruence.
  - unfold V71.agent_3_node. destruct (Qle_bool _ _); cbn; congruence.
Qed.

Lemma X8_v71_error_handler_is_dead_witness :
  V71.customer_id low_score_result = "c1" ∧
  V71.user_vectors_with_interests low_score_result ≠ [].
Proof.
  destruct (X8_v71_error_handler_is_dead one_customer find_low_score
              (V71.initial_state "c1") low_score_result [[1%Q]] eq_refl)
    as (_ & Hid & Hvec & _).
  split; [exact Hid|exact Hvec].
Defined.

(** ** The threshold validator, once more *)

(** X9. Validating twice is validating once, in v7.1 and in v6.4, and the
    validator never touches the customer id, the interests or the
    vectors. *)
Theorem X9_agent_3_node_idempotent :
  (∀ st : V71.WorkflowState,
     V71.agent_3_node (V71.agent_3_node st) = V71.agent_3_node st ∧
     V71.customer_id (V71.agent_3_node st) = V71.customer_id st ∧
     V71.user_interests (V71.agent_3_node st) = V71.user_interests st ∧
     V71.user_vectors_with_interests (V71.agent_3_node st) =
       V71.user_vectors_with_interests st) ∧
  (∀ st : V64.WorkflowState,
     V64.agent_3_node (V64.agent_3_node st) = V64.agent_3_node st ∧
     V64.customer_id (V64.agent_3_node st) = V64.customer_id st ∧
     V64.user_interests (V64.agent_3_node st) = V64.user_interests st ∧
     V64.user_vectors_with_interests (V64.agent_3_node st) =
       V64.user_vectors_with_interests st ∧
     V64.similarity_score (V64.agent_3_node st) = V64.similarity_score st ∧
     V64.top_recommendations (V64.agent_3_node st) = V64.top_recommendations st).
Proof.
  split; intros st.
  - unfold V71.agent_3_node.
    destruct (Qle_bool SIMILARITY_THRESHOLD (V71.similarity_score st)) eqn:Hs;
      cbn [V71.similarity_score V71.customer_id V71.user_interests
           V71.user_vectors_with_interests V71.ad_url V71.product
           V71.top_recommendations].
    + by rewrite Hs.
    + done.
  - unfold V64.agent_3_node.
    cbn [V64.similarity_score V64.similarity_score_agg V64.customer_id
         V64.user_interests V64.user_vectors V64.user_vectors_with_interests
         V64.user_vector_agg V64.ad_url V64.ad_url_agg V64.product
         V64.product_agg V64.top_recommendations V64.top_recommendations_agg].
    split_and!; try done.
    by destruct (Qle_bool _ (V64.similarity_score st)),
                (Qle_bool _ (V64.similarity_score_agg st)).
Qed.

(** ** The empty selection pool in v6.4 *)

(** X10. In v6.4, when no interest vector contributes a candidate,
    [agent_2_node] returns its empty result whatever the Aggregation
    Approach found: the closing log lines read [top_match], which was
    never bound, and the [except] clause discards the aggregation
    result. *)
Theorem X10_v64_empty_selection_discards_aggregation
    (all_ads : outcome (list ad)) (find : ads_db) (st : V64.WorkflowState) :
  merged_pool find 0 (V64.user_vectors_with_interests st) = [] →
  (V64.agent_2_node all_ads find st).2 = V64.agent_2_failed st.
Proof.
  intros Hpool. unfold V64.agent_2_node, V64.agent_2_try.
  repeat case_decide; try done.
  destruct all_ads as [ads|e]; [|done].
  destruct (collect_loop _ _ _ _ _) as [q [pool|e]] eqn:Hloop; [|done].
  apply collect_loop_pool in Hloop as (_ & _ & ->). rewrite Hpool.
  cbn [V64.selection_approach].
  by destruct (V64.aggregation_approach _ _) as [qa [[[[u p] s] sl]|e]].
Qed.

Lemma X10_v64_empty_selection_discards_aggregation_witness :
  V64.aggregation_approach find_for_aggregate_only
    (V64.user_vector_agg (v64_state_with two_vectors)) =
    ([[4 # 2]%Q],
     Returns ("https://ads.example/shoes&autoplay=1&mute=1", "Shoes", 0.9%Q,
              [{| rec_url := "https://ads.example/shoes&autoplay=1&mute=1";
                  rec_product := "Shoes"; rec_score := 0.9 |}])) ∧
  V64.agent_2_node (Returns []) find_for_aggregate_only
    (v64_state_with two_vectors) =
    ([[1%Q]; [3%Q]; [4 # 2]%Q], V64.agent_2_failed (v64_state_with two_vectors)).
Proof.
  split; [reflexivity|].
  pose proof (X10_v64_empty_selection_discards_aggregation (Returns [])
                find_for_aggregate_only (v64_state_with two_vectors) eq_refl)
    as Hfailed.
  rewrite <- Hfailed. reflexivity.
Defined.

(** ** The Aggregation Approach of v6.4 *)

(** The sort on the score alone orders any list by score. *)
Lemma sort_score_sorted_any (l : list candidate) :
  sorted_by_score_desc (sort_desc score_ltb l).
Proof.
  apply (sort_desc_sorted score_ltb _ (λ _ _, True)).
  - intros x y H. apply score_ltb_true in H. by apply Qlt_le_weak.
  - intros x y _ H. by apply score_ltb_false.
  - intros x y z Hxy Hyz. apply score_ltb_false.
    apply score_ltb_false in Hxy. eapply Qle_trans; eassumption.
  - induction l; constructor; [done|]. by apply Forall_true.
Qed.

(** Started on an empty list with no url seen, the shortlist loop does
    what it does after the top match was put first. *)
Lemma shortlist_loop_from_empty (top : candidate) (rest : list candidate) :
  top_and_shortlist (top :: rest) =
    Returns (top, shortlist_loop (top :: rest) ∅ []).
Proof.
  cbn [top_and_shortlist shortlist_loop].
  rewrite decide_True by (split; [set_solver|cbn; lia]).
  cbn [app]. by rewrite (right_id_L ∅ (∪)).
Qed.

(** The two cases of the aggregation result that later proofs share. *)
Lemma aggregation_result_cases (find : ads_db) (agg : list Q)
    (queried : list (list Q)) (url product : string) (score : Q)
    (shortlist : list Recommendation) :
  V64.aggregation_approach find agg =
    (queried, Returns (url, product, score, shortlist)) →
  (shortlist = [] → url = "" ∧ product = "" ∧ score = 0%Q) ∧
  (∀ first tail, shortlist = first :: tail →
     first = {| rec_url := url; rec_product := product; rec_score := score |} ∧
     playable url).
Proof.
  unfold V64.aggregation_approach.
  assert (∀ q, (q, Returns ("", "", 0%Q, [])) =
               (queried, Returns (url, product, score, shortlist)) →
          (shortlist = [] → url = "" ∧ product = "" ∧ score = 0%Q) ∧
          (∀ first tail, shortlist = first :: tail →
             first = {| rec_url := url; rec_product := product;
                        rec_score := score |} ∧ playable url)) as Hempty.
  { by intros q [= <- <- <- <- <-]. }
  destruct agg as [|x agg]; [apply Hempty|].
  destruct (find (x :: agg)) as [[|a top_ads]|e]; [apply Hempty| |done].
  destruct (sort_desc _ _) as [|top rest] eqn:Hsort; [apply Hempty|].
  pose proof (shortlist_loop_from_empty top rest) as Hts.
  remember (shortlist_loop (top :: rest) ∅ []) as sl eqn:Hsl. clear Hsl.
  intros [= <- <- <- <- <-].
  destruct (candidates_of_query_facts (-1) (a :: top_ads)) as (Hnd & Hplay).
  assert (NoDup (cand_product <$> top :: rest)) as Hnd'.
  { rewrite <- Hsort. by rewrite sort_desc_perm. }
  destruct (shortlist_facts _ _ _ Hnd' Hts) as (_ & [tail Htail] & _).
  split; [by rewrite Htail|].
  intros first tail'. rewrite Htail. intros [= <- _]. split; [done|].
  rewrite Forall_forall in Hplay. apply Hplay.
  rewrite <- (sort_desc_perm score_ltb), Hsort. by left.
Qed.

(** X11. What the Aggregation Approach of v6.4 returns. It issues one
    query, for the aggregated vector, or none when that vector is empty.
    Its shortlist has no two entries with the same url or the same
    product, is in descending order of score and has at most five
    entries. When the shortlist is empty, url and product are empty and
    the score is 0; otherwise its first entry carries the returned url,
    product and score, and the url is playable. *)
Theorem X11_v64_aggregation_approach (find : ads_db) (agg : list Q)
    (queried : list (list Q)) (url product : string) (score : Q)
    (shortlist : list Recommendation) :
  V64.aggregation_approach find agg =
    (queried, Returns (url, product, score, shortlist)) →
  queried = (if decide (agg = []) then [] else [agg]) ∧
  NoDup (rec_url <$> shortlist) ∧
  NoDup (rec_product <$> shortlist) ∧
  sorted_recommendations shortlist ∧
  (length shortlist ≤ 5)%nat ∧
  (shortlist = [] → url = "" ∧ product = "" ∧ score = 0%Q) ∧
  (∀ first tail, shortlist = first :: tail →
     first = {| rec_url := url; rec_product := product; rec_score := score |} ∧
     playable url).
Proof.
  unfold V64.aggregation_approach.
  assert (∀ q, (q, Returns ("", "", 0%Q, [])) =
               (queried, Returns (url, product, score, shortlist)) →
          (q = queried) ∧
          NoDup (rec_url <$> shortlist) ∧ NoDup (rec_product <$> shortlist) ∧
          sorted_recommendations shortlist ∧ (length shortlist ≤ 5)%nat ∧
          (shortlist = [] → url = "" ∧ product = "" ∧ score = 0%Q) ∧
          (∀ first tail, shortlist = first :: tail →
             first = {| rec_url := url; rec_product := product;
                        rec_score := score |} ∧ playable url)) as Hempty.
  { intros q [= <- <- <- <- <-]. split_and!; try done; try constructor.
    cbn. lia. }
  destruct agg as [|x agg].
  { intros H. by destruct (Hempty _ H) as (<- & ?). }
  rewrite decide_False by done.
  destruct (find (x :: agg)) as [[|a top_ads]|e]; [| |done].
  { intros H. by destruct (Hempty _ H) as (<- & ?). }
  destruct (sort_desc _ _) as [|top rest] eqn:Hsort.
  { intros H. by destruct (Hempty _ H) as (<- & ?). }
  pose proof (shortlist_loop_from_empty top rest) as Hts.
  remember (shortlist_loop (top :: rest) ∅ []) as sl eqn:Hsl. clear Hsl.
  intros [= <- <- <- <- <-].
  destruct (candidates_of_query_facts (-1) (a :: top_ads))
    as (Hnd & Hplay).
  assert (NoDup (cand_product <$> top :: rest)) as Hnd'.
  { rewrite <- Hsort. by rewrite sort_desc_perm. }
  assert (sorted_by_score_desc (top :: rest)) as Hsorted.
  { rewrite <- Hsort. apply sort_score_sorted_any. }
  destruct (shortlist_facts _ _ _ Hnd' Hts) as (_ & [tail Htail] & Hp & Hu & _).
  destruct (shortlist_ranked _ _ _ Hsorted Hts) as (Hrank & Hlen & _).
  split_and!; try done.
  - by rewrite Htail.
  - intros first tail'. rewrite Htail. intros [= <- _]. split; [done|].
    rewrite Forall_forall in Hplay. apply Hplay.
    rewrite <- (sort_desc_perm score_ltb), Hsort. by left.
Qed.

Lemma X11_v64_aggregation_approach_witness :
  NoDup (rec_url <$> [{| rec_url := "https://ads.example/shoes&autoplay=1&mute=1";
                         rec_product := "Shoes"; rec_score := 0.9 |}]) ∧
  playable "https://ads.example/shoes&autoplay=1&mute=1".
Proof.
  destruct (X11_v64_aggregation_approach find_for_aggregate_only [4 # 2]%Q
              [[4 # 2]%Q] "https://ads.example/shoes&autoplay=1&mute=1"
              "Shoes" 0.9%Q
              [{| rec_url := "https://ads.example/shoes&autoplay=1&mute=1";
                  rec_product := "Shoes"; rec_score := 0.9 |}] eq_refl)
    as (_ & Hu & _ & _ & _ & _ & Hfirst).
  split; [exact Hu|]. exact (proj2 (Hfirst _ _ eq_refl)).
Defined.

(** ** What [main] opens *)

Lemma playable_nonempty (u : string) : playable u → u ≠ "".
Proof. intros (link & Hlink & ->). by destruct link. Qed.

Lemma merged_pool_playable (find : ads_db) (vectors : list interest) :
  ∀ idx, Forall (λ c, playable (cand_url c)) (merged_pool find idx vectors).
Proof.
  induction vectors as [|v rest IH]; intros idx; cbn [merged_pool].
  - constructor.
  - apply Forall_app. split; [|apply IH].
    unfold contribution. destruct (find _); [|constructor].
    apply candidates_of_query_facts.
Qed.

Lemma threshold_above_zero : Qle_bool SIMILARITY_THRESHOLD 0 = false.
Proof. reflexivity. Qed.

(** A state of [agent_2_node] whose score reaches the threshold carries
    a playable url, for either approach. *)
Lemma V64_agent_2_node_urls (all_ads : outcome (list ad)) (find : ads_db)
    (st : V64.WorkflowState) :
  let s2 := (V64.agent_2_node all_ads find st).2 in
  (Qle_bool SIMILARITY_THRESHOLD (V64.similarity_score s2) = true →
   playable (V64.ad_url s2)) ∧
  (Qle_bool SIMILARITY_THRESHOLD (V64.similarity_score_agg s2) = true →
   playable (V64.ad_url_agg s2)).
Proof.
  assert (∀ s, s = V64.agent_2_failed st →
    (Qle_bool SIMILARITY_THRESHOLD (V64.similarity_score s) = true →
     playable (V64.ad_url s)) ∧
    (Qle_bool SIMILARITY_THRESHOLD (V64.similarity_score_agg s) = true →
     playable (V64.ad_url_agg s))) as Hfailed.
  { intros s ->. cbn. by rewrite threshold_above_zero. }
  cbv zeta. unfold V64.agent_2_node.
  repeat case_decide; try by apply Hfailed.
  unfold V64.agent_2_try.
  destruct all_ads as [ads|e]; [|by apply Hfailed].
  destruct (collect_loop _ _ _ _ _) as [q [pool|e]] eqn:Hloop; [|by apply Hfailed].
  apply collect_loop_pool in Hloop as (_ & _ & ->).
  destruct (V64.selection_approach _) as [[[top sl]|]|e] eqn:Hsel;
    [| |by apply Hfailed].
  - destruct (V64.aggregation_approach _ _) as [qa [[[[u p] s] sla]|e]] eqn:Hagg;
      [|by apply Hfailed].
    cbn [snd V64.similarity_score V64.similarity_score_agg V64.ad_url
         V64.ad_url_agg]. split.
    + intros _. revert Hsel. unfold V64.selection_approach.
      destruct (merged_pool find 0 _) as [|c pool] eqn:Hpool; [done|].
      destruct (top_and_shortlist _) as [[t sl']|e] eqn:Hts; [|done].
      intros [= -> ->].
      assert (top ∈ V64.deduplicated_recommendations (c :: pool)) as Hin.
      { destruct (V64.deduplicated_recommendations (c :: pool)); [done|].
        cbn in Hts. injection Hts as -> _. by left. }
      unfold V64.deduplicated_recommendations in Hin.
      apply elem_of_sort_desc, dedup_loop_elem in Hin as [Hin _].
      apply elem_of_sort_desc in Hin. rewrite <- Hpool in Hin.
      pose proof (merged_pool_playable find (V64.user_vectors_with_interests st) 0)
        as Hplay.
      rewrite Forall_forall in Hplay. by apply Hplay.
    + intros Hs.
      destruct (aggregation_result_cases _ _ _ _ _ _ _ Hagg)
        as (Hnil & Hcons).
      destruct sla as [|first tail].
      * destruct Hnil as (_ & _ & ->); [done|]. by rewrite threshold_above_zero in Hs.
      * by destruct (Hcons _ _ eq_refl).
  - by destruct (V64.aggregation_approach _ _) as [qa [[[[u p] s] sla]|e]];
      apply Hfailed.
Qed.

Lemma opened_if_approved (u : string) (b : bool) :
  (b = true → u ≠ "") →
  (if decide (u ≠ "" ∧ b = true) then [u] else []) = if b then [u] else [].
Proof.
  intros Hu. destruct b.
  - by rewrite decide_True by (split; [by apply Hu|done]).
  - by rewrite decide_False by (by intros [_ ?]).
Qed.

(** X12. [main] opens the url of an approach exactly when that approach
    was approved, the Selection Approach first: the test on the url
    never holds an approved ad back, because an approved url is always
    playable. An approach is approved only with a score of at least 0.7,
    and a run that ends in the error handler opens nothing. *)
Theorem X12_main_opens_approved_ads (env : V64.environment)
    (all_ads : outcome (list ad)) (find : ads_db) :
  let st := (V64.graph_invoke env all_ads find V64.initial_state).2 in
  V64.main env all_ads find =
    (if V64.play_ad st then [V64.ad_url st] else []) ++
    (if V64.play_ad_agg st then [V64.ad_url_agg st] else []) ∧
  Forall playable (V64.main env all_ads find) ∧
  (V64.play_ad st = true →
   (SIMILARITY_THRESHOLD <= V64.similarity_score st)%Q) ∧
  (V64.play_ad_agg st = true →
   (SIMILARITY_THRESHOLD <= V64.similarity_score_agg st)%Q) ∧
  (V64.customer_id (V64.agent_1_node env V64.initial_state) = "" →
   V64.main env all_ads find = []).
Proof.
  cbv zeta. unfold V64.main, V64.graph_invoke.
  case_decide as Hid.
  { cbn. split_and!; done. }
  pose proof (V64_agent_2_node_urls all_ads find
                (V64.agent_1_node env V64.initial_state)) as Hurls.
  cbv zeta in Hurls.
  destruct (V64.agent_2_node _ _ _) as [q s2]. cbn [snd] in *.
  destruct Hurls as [Hsel Hagg].
  unfold V64.opened_urls. rewrite !opened_if_approved.
  - unfold V64.agent_3_node.
    cbn [V64.play_ad V64.play_ad_agg V64.ad_url V64.ad_url_agg
         V64.similarity_score V64.similarity_score_agg].
    split_and!; [done| | | |done].
    + apply Forall_app. split.
      * destruct (Qle_bool _ (V64.similarity_score s2)); repeat constructor.
        by apply Hsel.
      * destruct (Qle_bool _ (V64.similarity_score_agg s2)); repeat constructor.
        by apply Hagg.
    + apply Qle_bool_true.
    + apply Qle_bool_true.
  - unfold V64.agent_3_node. cbn [V64.play_ad_agg V64.ad_url_agg].
    intros Hs. rewrite Hs. by apply playable_nonempty, Hagg.
  - unfold V64.agent_3_node. cbn [V64.play_ad V64.ad_url].
    intros Hs. rewrite Hs. by apply playable_nonempty, Hsel.
Qed.

Example main_opens_both_approaches :
  V64.main env_face (Returns []) find_three =
    ["https://ads.example/shoes&autoplay=1&mute=1";
     "https://ads.example/shoes&autoplay=1&mute=1"] ∧
  V64.main env_face (Returns []) find_low_score = [] ∧
  V64.main env_invalid_choice (Returns []) find_three = [].
Proof. split_and!; reflexivity. Qed.

(** ** [get_random_user_id] *)

Lemma no_user_ok : user_tuple_ok V64.no_user.
Proof. cbn. split_and!; done. Qed.

Lemma user_of_entries_ok (customer_id : string) (all_entries : list entry) :
  user_tuple_ok (V64.user_of_entries customer_id all_entries).
Proof.
  unfold V64.user_of_entries.
  destruct all_entries as [|e entries]; [apply no_user_ok|].
  remember (e :: entries) as all_entries eqn:Hall. clear Hall e entries.
  pose proof (vectors_with_interests_usable all_entries) as Hq.
  remember (vectors_with_interests_of all_entries) as with_interests eqn:Hw.
  remember (filter (λ v : list Q, v ≠ [])
              ((λ e, default [] (entry_vector e)) <$> all_entries))
    as user_vectors eqn:Hv.
  assert (Forall (λ v : list Q, v ≠ []) user_vectors) as Hne.
  { subst user_vectors. apply Forall_forall.
    by intros v [? _]%list_elem_of_filter. }
  clear Hw Hv.
  destruct (decide (user_vectors = [])) as [->|Hvectors].
  { unfold user_tuple_ok. split_and!; try done; split; intros [? ?]; eauto. }
  destruct (decide (V64.aggregate_vectors user_vectors = [])) as [Hagg|Hagg].
  { unfold user_tuple_ok. split_and!; try done; split; intros [? ?]; eauto. }
  assert (with_interests ≠ []) as Hwith.
  { intros ->. by rewrite fmap_nil in Hq. }
  unfold user_tuple_ok. split_and!; try done; split; intros [? ?]; eauto.
Qed.

Lemma user_of_document_ok (store : V64.user_store) (doc : V64.document)
    (t : V64.user_tuple) :
  V64.user_of_document store doc = Some t → user_tuple_ok t.
Proof.
  unfold V64.user_of_document.
  destruct (V64.UserId doc) as [customer_id|]; [|done].
  destruct (V64.find_user store customer_id) as [all_entries|]; [|done].
  intros [= <-]. apply user_of_entries_ok.
Qed.

Lemma user_of_documents_ok (store : V64.user_store) (rnd : V64.dice)
    (documents : outcome (list V64.document)) (t : V64.user_tuple) :
  V64.user_of_documents store rnd documents = Some t → user_tuple_ok t.
Proof.
  unfold V64.user_of_documents.
  destruct documents as [[|doc documents]|]; [done| |done].
  apply user_of_document_ok.
Qed.

Lemma get_random_user_id_ok (store : V64.user_store) (rnd : V64.dice) :
  user_tuple_ok (V64.get_random_user_id store rnd).
Proof.
  unfold V64.get_random_user_id.
  destruct (V64.count_documents store) as [total_docs|]; [|apply no_user_ok].
  case_decide; [apply no_user_ok|].
  unfold V64.skip_method, V64.page_method, V64.first_method.
  destruct (V64.user_of_documents store rnd (V64.find_batch _ _ _)) as [t|] eqn:H1;
    [by eapply user_of_documents_ok|].
  destruct (V64.user_of_documents store rnd (V64.find_page _)) as [t|] eqn:H2;
    [by eapply user_of_documents_ok|].
  destruct (V64.find_one store) as [[doc|]|]; try apply no_user_ok.
  destruct (V64.user_of_document store doc) as [t|] eqn:H3;
    [by eapply user_of_document_ok|apply no_user_ok].
Qed.


(** Two vectors of different lengths: the customer and the vectors are
    returned, the vectors with interests and the aggregate are not. *)
Example get_random_user_id_ragged :
  ∃ interests,
    V64.get_random_user_id ragged_store first_choice =
      (Some "c7", Some interests, [[1%Q; 2%Q]; [3%Q]], [], []).
Proof. eexists. vm_compute. reflexivity. Qed.

(** ** The customer data [agent_1_node] of v6.4 hands on *)

Lemma agent_1_empty_ok (state : V64.WorkflowState) :
  V64_customer_ok (V64.agent_1_empty state) ∧
  V64.customer_id (V64.agent_1_empty state) = "" ∧
  V64.user_vectors (V64.agent_1_empty state) = [] ∧
  V64.user_vectors_with_interests (V64.agent_1_empty state) = [] ∧
  V64.user_vector_agg (V64.agent_1_empty state) = [].
Proof. unfold V64_customer_ok. cbn. split_and!; done. Qed.

Lemma V64_agent_1_node_facts (typed : string) (endpoint token : bool)
    (connection : outcome ()) (store : V64.user_store) (rnd : V64.dice)
    (state : V64.WorkflowState) :
  let s1 :=
    V64.agent_1_node
      (V64.environment_of typed endpoint token connection store rnd) state in
  V64_customer_ok s1 ∧
  (typed ≠ "1" → typed ≠ "2" → V64.customer_id s1 = "") ∧
  (typed = "1" →
   V64.user_vectors_with_interests s1 ≠ [] ↔ V64.user_vector_agg s1 ≠ []) ∧
  (typed = "2" →
   V64.user_vectors_with_interests s1 ≠ [] ↔ V64.user_vectors s1 ≠ []).
Proof.
  cbv zeta.
  assert (∀ s, s = V64.agent_1_empty state →
    V64_customer_ok s ∧
    (typed ≠ "1" → typed ≠ "2" → V64.customer_id s = "") ∧
    (typed = "1" →
     V64.user_vectors_with_interests s ≠ [] ↔ V64.user_vector_agg s ≠ []) ∧
    (typed = "2" →
     V64.user_vectors_with_interests s ≠ [] ↔ V64.user_vectors s ≠ []))
    as Hempty.
  { intros s ->.
    destruct (agent_1_empty_ok state) as (Hok & Hid & Hv & Hw & Hagg).
    rewrite Hid, Hv, Hw, Hagg. split_and!; done. }
  unfold V64.environment_of.
  pose proof (get_random_user_id_ok store rnd) as Hok.
  destruct (V64.get_random_user_id store rnd)
    as [[[[id interests] vectors] with_interests] agg].
  unfold user_tuple_ok in Hok. destruct Hok as (_ & _ & Hne & Hiff & Hwith).
  unfold V64.agent_1_node.
  cbn [V64.choice V64.endpoint_valid V64.token_set V64.connect
       V64.random_customer_id V64.random_user_interests
       V64.random_user_vectors V64.random_user_vectors_with_interests
       V64.random_user_vector_agg V64.users].
  case_decide as H1.
  - destruct endpoint; [|by apply Hempty].
    destruct token; [|by apply Hempty].
    cbn [negb].
    destruct connection; [|by apply Hempty].
    destruct id as [id|]; [|by apply Hempty].
    case_decide as Hid; [by apply Hempty|].
    case_decide as Hvectors.
    + unfold V64_customer_ok. cbn. split_and!; done.
    + unfold V64_customer_ok. cbn. split_and!; try done.
      * intros Hw. by apply Hwith.
      * intros Hagg. apply Hiff in Hagg. split; [done|]. by apply Hwith.
      * intros ->. done.
  - case_decide as H2; [|by apply Hempty].
    destruct connection; [|by apply Hempty].
    destruct (V64.find_user store V64.dummy_facial_recognition)
      as [entries|]; [|by apply Hempty].
    pose proof (vectors_with_interests_usable entries) as Hq.
    remember (vectors_with_interests_of entries) as with_interests' eqn:Hw.
    remember (filter (λ v : list Q, v ≠ [])
                ((λ e, default [] (entry_vector e)) <$> entries))
      as vectors' eqn:Hv.
    assert (Forall (λ v : list Q, v ≠ []) vectors') as Hne'.
    { subst vectors'. apply Forall_forall.
      by intros v [? _]%list_elem_of_filter. }
    clear Hw Hv.
    assert (vectors' ≠ [] → with_interests' ≠ []) as Hwith'.
    { intros Hv ->. by rewrite fmap_nil in Hq. }
    case_decide as Hvectors.
    + unfold V64_customer_ok. cbn. split_and!; done.
    + unfold V64_customer_ok. cbn. split_and!; try done.
      * intros _. split; [by apply Hwith'|done].
Qed.

(** ** The queries of a v6.4 run *)

Lemma aggregation_approach_log (find : ads_db) (agg : list Q) :
  (V64.aggregation_approach find agg).1 =
    if decide (agg = []) then [] else [agg].
Proof.
  unfold V64.aggregation_approach. destruct agg as [|x agg]; [done|].
  rewrite decide_False by done.
  destruct (find (x :: agg)) as [[|a top_ads]|e]; try done.
  by destruct (sort_desc _ _).
Qed.

(** The queries [agent_2_node] is about to issue for a state. *)
Lemma V64_agent_2_try_log (all_ads : outcome (list ad)) (find : ads_db)
    (st : V64.WorkflowState) :
  let expected :=
    (query_vector <$> V64.user_vectors_with_interests st) ++
    (if decide (V64.user_vector_agg st = []) then []
     else [V64.user_vector_agg st]) in
  (V64.agent_2_try all_ads find st).1 `prefix_of` expected ∧
  (∀ r, (V64.agent_2_try all_ads find st).2 = Returns r →
     (V64.agent_2_try all_ads find st).1 = expected ∧
     V64.user_vectors_with_interests st ≠ []).
Proof.
  cbv zeta. unfold V64.agent_2_try.
  destruct all_ads as [ads|e]; [|split; [apply prefix_nil|done]].
  destruct (collect_loop_log_prefix find (V64.user_vectors_with_interests st)
              0 [] []) as (asked & Hasked & Hprefix).
  destruct (collect_loop _ _ _ _ _) as [q [pool|e]] eqn:Hloop;
    cbn [fst app] in Hasked; subst q.
  2:{ split; [by apply prefix_app_r|done]. }
  apply collect_loop_pool in Hloop as (_ & -> & ->).
  destruct (V64.selection_approach _) as [selection|e] eqn:Hsel.
  2:{ split; [by apply prefix_app_r|done]. }
  pose proof (aggregation_approach_log find (V64.user_vector_agg st)) as Hlog.
  destruct (V64.aggregation_approach _ _) as [qa [[[[u p] s] sl]|e]];
    cbn [fst] in Hlog; subst qa; [|by split].
  destruct selection as [[top shortlist]|]; [|by split].
  cbn [fst snd]. split; [done|]. intros r _. split; [done|].
  intros Hnil. rewrite Hnil in Hsel. by cbn in Hsel.
Qed.

Lemma V64_agent_2_node_log (all_ads : outcome (list ad)) (find : ads_db)
    (st : V64.WorkflowState) :
  let expected :=
    (query_vector <$> V64.user_vectors_with_interests st) ++
    (if decide (V64.user_vector_agg st = []) then []
     else [V64.user_vector_agg st]) in
  let r := V64.agent_2_node all_ads find st in
  r.1 `prefix_of` expected ∧
  (Qle_bool SIMILARITY_THRESHOLD (V64.similarity_score r.2) = true ∨
   Qle_bool SIMILARITY_THRESHOLD (V64.similarity_score_agg r.2) = true →
   r.1 = expected ∧ V64.user_vectors_with_interests st ≠ []).
Proof.
  cbv zeta. unfold V64.agent_2_node.
  assert (∀ q : list (list Q),
    Qle_bool SIMILARITY_THRESHOLD
      (V64.similarity_score (q, V64.agent_2_failed st).2) = true ∨
    Qle_bool SIMILARITY_THRESHOLD
      (V64.similarity_score_agg (q, V64.agent_2_failed st).2) = true →
    False) as Hfailed.
  { intros q. cbn. rewrite threshold_above_zero. by intros [?|?]. }
  case_decide; [split; [apply prefix_nil|by intros ?%Hfailed]|].
  case_decide; [split; [apply prefix_nil|by intros ?%Hfailed]|].
  destruct (V64_agent_2_try_log all_ads find st) as [Hprefix Hall].
  destruct (V64.agent_2_try all_ads find st) as [q [result|e]];
    cbn [fst snd] in *.
  - split; [done|]. intros _. by apply (Hall result).
  - split; [done|]. by intros ?%Hfailed.
Qed.

(** The queries expected from the state of [agent_1_node] are the
    customer's vectors and their aggregate. *)
Lemma V64_expected_queries (s : V64.WorkflowState) :
  V64_customer_ok s →
  let expected :=
    (query_vector <$> V64.user_vectors_with_interests s) ++
    (if decide (V64.user_vector_agg s = []) then []
     else [V64.user_vector_agg s]) in
  Forall (λ v, v ≠ []) expected ∧
  (V64.user_vectors_with_interests s = [] → expected = []) ∧
  (V64.user_vectors_with_interests s ≠ [] → expected = V64_all_queries s).
Proof.
  intros (Hne & _ & _ & Hwith & Hagg). cbv zeta. unfold V64_all_queries.
  destruct (decide (V64.user_vectors_with_interests s = [])) as [Hnil|Hcons].
  - rewrite Hnil. case_decide as Ha; [by split_and!|].
    by destruct (Hagg Ha).
  - rewrite (Hwith Hcons).
    destruct (decide (V64.user_vector_agg s = [])) as [Ha|Ha].
    + rewrite app_nil_r. by split_and!.
    + destruct (Hagg Ha) as [_ Hmean]. rewrite <- Hmean. split_and!; try done.
      apply Forall_app. split; [done|]. by repeat constructor.
Qed.


Example agent_1_node_ragged_vectors :
  let random :=
    V64.agent_1_node
      (V64.environment_of "1" true true (Returns ()) ragged_store first_choice)
      V64.initial_state in
  let recognised :=
    V64.agent_1_node
      (V64.environment_of "2" true true (Returns ()) ragged_store first_choice)
      V64.initial_state in
  V64.user_vectors random = [[1%Q; 2%Q]; [3%Q]] ∧
  V64.user_vectors_with_interests random = [] ∧
  V64.user_vector_agg random = [] ∧
  V64.user_vectors recognised = [[1%Q; 2%Q]; [3%Q]] ∧
  V64.user_vectors_with_interests recognised =
    [([1%Q; 2%Q], "Running", "Trail running"); ([3%Q], "Chess", "Openings")] ∧
  V64.user_vector_agg recognised = [].
Proof. cbv zeta. split_and!; reflexivity. Qed.

(** X15. The similarity queries of a v6.4 run, for every typed choice,
    store, draw and index. Every query is for a non-empty vector. The
    queries are, in order, a prefix of the customer's vectors followed
    by their aggregate; a run in which either approach is approved has
    issued all of them. Without vectors with interests no query is
    issued and nothing is opened. *)
Theorem X15_v64_queries (typed : string) (endpoint token : bool)
    (connection : outcome ()) (store : V64.user_store) (rnd : V64.dice)
    (all_ads : outcome (list ad)) (find : ads_db) :
  let env := V64.environment_of typed endpoint token connection store rnd in
  let s1 := V64.agent_1_node env V64.initial_state in
  let run := V64.graph_invoke env all_ads find V64.initial_state in
  Forall (λ v, v ≠ []) run.1 ∧
  run.1 `prefix_of` V64_all_queries s1 ∧
  (V64.play_ad run.2 = true ∨ V64.play_ad_agg run.2 = true →
   run.1 = V64_all_queries s1) ∧
  (V64.user_vectors_with_interests s1 = [] →
   run.1 = [] ∧ V64.main env all_ads find = []).
Proof.
  cbv zeta.
  destruct (V64_agent_1_node_facts typed endpoint token connection store rnd
              V64.initial_state) as (Hok & _).
  cbv zeta in Hok.
  remember (V64.environment_of typed endpoint token connection store rnd)
    as env eqn:Henv. clear Henv.
  unfold V64.main, V64.graph_invoke.
  remember (V64.agent_1_node env V64.initial_state) as s1 eqn:Hs1. clear Hs1.
  destruct (decide (V64.customer_id s1 = "")) as [Hid|Hid].
  { cbn. split_and!; [constructor|apply prefix_nil|by intros [?|?]|done]. }
  destruct (V64_expected_queries s1 Hok) as (Hne & Hnil & Hcons).
  cbv zeta in Hne, Hnil, Hcons.
  pose proof (V64_agent_2_node_log all_ads find s1) as Hlog.
  cbv zeta in Hlog.
  destruct (V64.agent_2_node all_ads find s1) as [q s2].
  cbn [fst snd] in *. destruct Hlog as [Hprefix Hall].
  unfold V64.agent_3_node. cbn [V64.play_ad V64.play_ad_agg].
  split_and!.
  - destruct Hprefix as [k Hk]. rewrite Hk in Hne.
    by apply Forall_app in Hne as [? _].
  - destruct (decide (V64.user_vectors_with_interests s1 = [])) as [Hw|Hw].
    + rewrite (Hnil Hw) in Hprefix. apply prefix_nil_inv in Hprefix as ->.
      apply prefix_nil.
    + by rewrite <- (Hcons Hw).
  - intros Hplay. destruct (Hall Hplay) as [-> Hw]. by apply Hcons.
  - intros Hw. split.
    + rewrite (Hnil Hw) in Hprefix. by apply prefix_nil_inv in Hprefix.
    + unfold V64.opened_urls.
      cbn [V64.play_ad V64.play_ad_agg V64.ad_url V64.ad_url_agg].
      destruct (Qle_bool SIMILARITY_THRESHOLD (V64.similarity_score s2)) eqn:H1.
      { by destruct (Hall (or_introl eq_refl)). }
      destruct (Qle_bool SIMILARITY_THRESHOLD (V64.similarity_score_agg s2)) eqn:H2.
      { by destruct (Hall (or_intror eq_refl)). }
      rewrite !decide_False by (by intros [_ ?]). done.
Qed.

Example ragged_vectors_are_not_queried :
  (V64.graph_invoke
     (V64.environment_of "1" true true (Returns ()) ragged_store first_choice)
     (Returns []) find_three V64.initial_state).1 = [] ∧
  (V64.graph_invoke
     (V64.environment_of "2" true true (Returns ()) ragged_store first_choice)
     (Returns []) find_three V64.initial_state).1 = [[1%Q; 2%Q]; [3%Q]].
Proof. split; reflexivity. Qed.

(** ** [aggregate_vectors] *)

Lemma Qdiv_one (x : Q) : (x / inject_Z (Z.of_nat 1))%Q = x.
Proof.
  destruct x as [n d]. unfold Qdiv, Qmult, Qinv.
  cbn [inject_Z Z.of_nat Qnum Qden Pos.of_succ_nat].
  by rewrite Z.mul_1_r, Pos.mul_1_r.
Qed.

Lemma aggregate_vectors_single (v : list Q) : V64.aggregate_vectors [v] = v.
Proof.
  unfold V64.aggregate_vectors, V64.np_mean_axis0.
  cbn [forallb foldl length].
  induction v as [|x v IH]; [done|].
  rewrite fmap_cons, IH. by rewrite Qdiv_one.
Qed.

Lemma forallb_same_length (v0 : list Q) (rest : list (list Q)) :
  forallb (λ v, (length v =? length v0)%nat) rest = true ↔
  Forall (λ v, length v = length v0) rest.
Proof.
  rewrite forallb_forall, Forall_forall. split.
  - intros H v Hv%list_elem_of_In. by apply Nat.eqb_eq, H.
  - intros H v Hv%list_elem_of_In. by apply Nat.eqb_eq, H.
Qed.

(** X16. When [aggregate_vectors] returns a vector and when it returns
    the empty list. The result is non-empty exactly when there is at
    least one vector, the first is non-empty and all have its length;
    the result then has that length. Vectors of different lengths give
    the empty list, and a single vector is returned as it is. *)
Theorem X16_aggregate_vectors_shape :
  (∀ v, V64.aggregate_vectors [v] = v) ∧
  (∀ v0 rest,
     V64.aggregate_vectors (v0 :: rest) ≠ [] ↔
     v0 ≠ [] ∧ Forall (λ v, length v = length v0) rest) ∧
  (∀ v0 rest,
     V64.aggregate_vectors (v0 :: rest) ≠ [] →
     length (V64.aggregate_vectors (v0 :: rest)) = length v0) ∧
  (∀ v0 rest,
     ¬ Forall (λ v, length v = length v0) rest →
     V64.aggregate_vectors (v0 :: rest) = []).
Proof.
  assert (∀ v0 rest,
    Forall (λ v, length v = length v0) rest →
    length (V64.aggregate_vectors (v0 :: rest)) = length v0) as Hlen.
  { intros v0 rest Hrest. unfold V64.aggregate_vectors, V64.np_mean_axis0.
    rewrite (proj2 (forallb_same_length v0 rest) Hrest).
    rewrite length_fmap. by apply foldl_zip_with_length. }
  assert (∀ v0 rest,
    ¬ Forall (λ v, length v = length v0) rest →
    V64.aggregate_vectors (v0 :: rest) = []) as Hragged.
  { intros v0 rest Hrest. unfold V64.aggregate_vectors, V64.np_mean_axis0.
    destruct (forallb _ rest) eqn:Hall; [|done].
    by apply forallb_same_length in Hall. }
  split_and!.
  - apply aggregate_vectors_single.
  - intros v0 rest. split.
    + intros Hagg.
      destruct (decide (Forall (λ v, length v = length v0) rest)) as [Hrest|Hrest].
      * split; [|done]. intros ->. specialize (Hlen [] rest Hrest).
        by destruct (V64.aggregate_vectors ([] :: rest)).
      * by rewrite (Hragged v0 rest Hrest) in Hagg.
    + intros [Hv0 Hrest] Hagg. specialize (Hlen v0 rest Hrest).
      rewrite Hagg in Hlen. by destruct v0.
  - intros v0 rest Hagg. apply Hlen.
    destruct (decide (Forall (λ v, length v = length v0) rest)) as [Hrest|Hrest];
      [done|].
    by rewrite (Hragged v0 rest Hrest) in Hagg.
  - apply Hragged.
Qed.

Example aggregate_vectors_ragged :
  V64.aggregate_vectors [[1%Q; 2%Q]; [3%Q]] = [] ∧
  V64.aggregate_vectors [[]; []] = [] ∧
  V64.aggregate_vectors [[1%Q; 2%Q]] = [1%Q; 2%Q].
Proof. split_and!; reflexivity. Qed.

(** ** One vector: the two approaches of v6.4 *)

Lemma vector_loop_with_idx (idx idx' : Z) (top_ads : list ad) :
  ∀ seen acc,
    vector_loop idx' top_ads seen (with_idx idx' <$> acc) =
      with_idx idx' <$> vector_loop idx top_ads seen acc.
Proof.
  induction top_ads as [|a rest IH]; intros seen acc; [done|].
  cbn [vector_loop]. repeat case_decide; try apply IH.
  rewrite <- IH. by rewrite fmap_app.
Qed.

Lemma insert_desc_with_idx (idx : Z) (x : candidate) (l : list candidate) :
  insert_desc score_ltb (with_idx idx x) (with_idx idx <$> l) =
    with_idx idx <$> insert_desc score_ltb x l.
Proof.
  induction l as [|y l IH]; [done|].
  cbn [insert_desc fmap list_fmap].
  change (score_ltb (with_idx idx x) (with_idx idx y)) with (score_ltb x y).
  destruct (score_ltb x y); [|done].
  cbn [fmap list_fmap]. f_equal. apply IH.
Qed.

Lemma sort_desc_with_idx (idx : Z) (l : list candidate) :
  sort_desc score_ltb (with_idx idx <$> l) =
    with_idx idx <$> sort_desc score_ltb l.
Proof.
  induction l as [|x l IH]; [done|].
  cbn [sort_desc foldr fmap list_fmap].
  change (foldr (insert_desc score_ltb) [] (with_idx idx <$> l))
    with (sort_desc score_ltb (with_idx idx <$> l)).
  rewrite IH. apply insert_desc_with_idx.
Qed.

Lemma shortlist_loop_with_idx (idx : Z) (l : list candidate) :
  ∀ seen acc,
    shortlist_loop (with_idx idx <$> l) seen acc = shortlist_loop l seen acc.
Proof.
  induction l as [|x l IH]; intros seen acc; [done|].
  cbn [shortlist_loop fmap list_fmap].
  change (cand_url (with_idx idx x)) with (cand_url x).
  change (to_recommendation (with_idx idx x)) with (to_recommendation x).
  case_decide; apply IH.
Qed.

(** Products that are all different pass the dedup loop unchanged. *)
Lemma dedup_loop_nodup (l : list candidate) :
  NoDup (cand_product <$> l) →
  ∀ seen, (∀ c, c ∈ l → cand_product c ∉ seen) →
          dedup_loop l seen [] = l.
Proof.
  induction l as [|x l IH]; intros Hnd seen Hseen; [done|].
  rewrite fmap_cons in Hnd. apply NoDup_cons in Hnd as [Hx Hnd].
  rewrite dedup_loop_cons.
  rewrite decide_False by (apply Hseen; by left).
  f_equal. apply IH; [done|].
  intros c Hc. rewrite elem_of_union, elem_of_singleton.
  intros [Heq|Hin].
  - apply Hx. rewrite <- Heq. by apply list_elem_of_fmap_2.
  - apply (Hseen c); [by right|done].
Qed.

Lemma sort_score_idempotent (l : list candidate) :
  sort_desc score_ltb (sort_desc score_ltb l) = sort_desc score_ltb l.
Proof.
  apply sort_desc_id.
  pose proof (sort_score_sorted_any l) as Hsorted.
  unfold sorted_by_score_desc in Hsorted.
  induction Hsorted as [|x l' Hl' IH Hx]; constructor; [done|].
  eapply Forall_impl; [exact Hx|]. intros y Hy. by apply score_ltb_false.
Qed.

(** On the answer to one query the Selection Approach does what the
    Aggregation Approach does. *)
Lemma V64_selection_of_one_query (top_ads : list ad) (c : candidate)
    (rest : list candidate) :
  sort_desc score_ltb (vector_recommendations_of (-1) top_ads) = c :: rest →
  ∃ top,
    V64.selection_approach (vector_recommendations_of 0 top_ads) =
      Returns (Some (top, shortlist_loop (c :: rest) ∅ [])) ∧
    cand_url top = cand_url c ∧ cand_product top = cand_product c ∧
    cand_score top = cand_score c.
Proof.
  intros Hsort.
  pose proof (vector_loop_with_idx 0 (-1) top_ads ∅ []) as Hidx.
  cbn [fmap list_fmap] in Hidx.
  fold (vector_recommendations_of (-1) top_ads) in Hidx.
  fold (vector_recommendations_of 0 top_ads) in Hidx.
  rewrite Hidx, sort_desc_with_idx in Hsort.
  destruct (candidates_of_query_facts 0 top_ads) as [Hnd _].
  remember (vector_recommendations_of 0 top_ads) as pool eqn:Hpool.
  clear Hpool Hidx.
  unfold V64.selection_approach, V64.deduplicated_recommendations.
  destruct pool as [|c0 pool]; [done|].
  remember (c0 :: pool) as l eqn:Hl. clear Hl.
  rewrite dedup_loop_nodup.
  - rewrite sort_score_idempotent.
    destruct (sort_desc score_ltb l) as [|top rest'] eqn:Hsorted; [done|].
    rewrite shortlist_loop_from_empty.
    cbn [fmap list_fmap] in Hsort. injection Hsort as <- <-.
    exists top. split; [|done].
    by rewrite <- (shortlist_loop_with_idx (-1) (top :: rest')).
  - by rewrite sort_desc_perm.
  - set_solver.
Qed.

Lemma agent_2_failed_agrees (st : V64.WorkflowState) :
  V64_approaches_agree (V64.agent_2_failed st).
Proof. unfold V64_approaches_agree. cbn. by split_and!. Qed.

Lemma V64_single_vector_agree (all_ads : outcome (list ad)) (find : ads_db)
    (st : V64.WorkflowState) (v : list Q) (name description : string) :
  V64.user_vectors_with_interests st = [(v, name, description)] →
  V64.user_vector_agg st = v →
  v ≠ [] →
  V64_approaches_agree (V64.agent_2_node all_ads find st).2.
Proof.
  intros Hwith Hagg Hv. unfold V64.agent_2_node.
  repeat case_decide; try apply agent_2_failed_agrees.
  unfold V64.agent_2_try. rewrite Hwith, Hagg.
  destruct all_ads as [ads|e]; [|apply agent_2_failed_agrees].
  unfold V64.aggregation_approach. cbn [collect_loop].
  destruct v as [|x v]; [done|].
  destruct (find (x :: v)) as [[|a top_ads]|e];
    [apply agent_2_failed_agrees| |apply agent_2_failed_agrees].
  cbn [app].
  destruct (sort_desc score_ltb (vector_recommendations_of (-1) (a :: top_ads)))
    as [|c rest] eqn:Hsort.
  - apply sort_desc_nil_inv in Hsort.
    pose proof (vector_loop_with_idx 0 (-1) (a :: top_ads) ∅ []) as Hidx.
    cbn [fmap list_fmap] in Hidx.
    fold (vector_recommendations_of (-1) (a :: top_ads)) in Hidx.
    fold (vector_recommendations_of 0 (a :: top_ads)) in Hidx.
    rewrite Hsort in Hidx. symmetry in Hidx. apply fmap_nil_inv in Hidx.
    rewrite Hidx. apply agent_2_failed_agrees.
  - destruct (V64_selection_of_one_query _ _ _ Hsort)
      as (top & -> & Hu & Hp & Hs).
    unfold V64_approaches_agree. cbn. by split_and!.
Qed.

(** X17. For a customer with a single vector the two approaches of v6.4
    cannot differ, provided the index answers the same query alike both
    times: the aggregated vector is that vector, so after
    [agent_2_node] and after [agent_3_node] the Aggregation Approach
    reports the url, product, score, verdict and shortlist of the
    Selection Approach, and [main] opens nothing or the same url twice. *)
Theorem X17_v64_single_vector_approaches_agree (all_ads : outcome (list ad))
    (find : ads_db) (st : V64.WorkflowState) (v : list Q)
    (name description : string) :
  V64.user_vectors_with_interests st = [(v, name, description)] →
  V64.user_vector_agg st = V64.aggregate_vectors [v] →
  v ≠ [] →
  let s2 := (V64.agent_2_node all_ads find st).2 in
  let result := V64.agent_3_node s2 in
  V64_approaches_agree s2 ∧
  V64_approaches_agree result ∧
  (V64.opened_urls result = [] ∨
   V64.opened_urls result = [V64.ad_url s2; V64.ad_url s2]).
Proof.
  intros Hwith Hagg Hv. cbv zeta. rewrite aggregate_vectors_single in Hagg.
  pose proof (V64_single_vector_agree all_ads find st v name description
                Hwith Hagg Hv) as Hs2.
  remember (V64.agent_2_node all_ads find st).2 as s2 eqn:Heq. clear Heq.
  destruct Hs2 as (Hu & Hp & Hs & Hplay & Hsl).
  unfold V64_approaches_agree, V64.opened_urls, V64.agent_3_node.
  cbn [V64.ad_url V64.ad_url_agg V64.product V64.product_agg
       V64.similarity_score V64.similarity_score_agg V64.play_ad
       V64.play_ad_agg V64.top_recommendations V64.top_recommendations_agg].
  rewrite <- Hu, <- Hp, <- Hs, <- Hsl.
  split_and!; try done.
  destruct (Qle_bool SIMILARITY_THRESHOLD (V64.similarity_score s2)).
  - destruct (decide (V64.ad_url s2 = "")) as [Hempty|Hurl].
    + left. by rewrite !decide_False by (by intros [? _]).
    + right. by rewrite !decide_True by done.
  - left. by rewrite !decide_False by (by intros [_ ?]).
Qed.

Lemma X17_v64_single_vector_approaches_agree_witness :
  V64_approaches_agree
    (V64.graph_invoke env_single_record (Returns []) find_three
       V64.initial_state).2 ∧
  V64.main env_single_record (Returns []) find_three =
    ["https://ads.example/shoes&autoplay=1&mute=1";
     "https://ads.example/shoes&autoplay=1&mute=1"].
Proof.
  split; [|reflexivity].
  exact (proj1 (proj2
    (X17_v64_single_vector_approaches_agree (Returns []) find_three
       (V64.agent_1_node env_single_record V64.initial_state)
       [1%Q; 2%Q] "Running" "Trail running" eq_refl eq_refl
       ltac:(discriminate)))).
Defined.
